(** * war.c: territories, attack validation, combat and teardown

    A shallow embedding of [src/war.c].  The C program keeps its territories
    and missions in heap blocks reached through raw pointers, so the model
    is a block-structured memory ([gmap] from locations to typed blocks)
    threaded through a small state-and-error monad:

    - [Ret a w]   the call returns [a] in world [w];
    - [Exit c w]  the call ends the process with [exit(c)];
    - [Undef]     the call leaves defined C behaviour (null or dangling
                  dereference, out-of-bounds or uninitialised read, signed
                  overflow of an [int]).

    What the environment decides is an input of the model: the success of
    each [malloc]/[realloc] is a [bool] argument, the values returned by
    [rand()] are [Z] arguments.  [printf]/[perror] append to a console
    trace that is part of the world. *)

From Stdlib Require Import ZArith String.
From stdpp Require Import base option list gmap.

Local Open Scope Z_scope.

(** ** Machine integers *)

Definition min_int : Z := - 2 ^ 31.
Definition max_int : Z := 2 ^ 31 - 1.
Definition size_modulus : Z := 2 ^ 64.

(** The size of one pointer, [sizeof(Territory * )], on the LP64 target. *)
Definition sizeof_ptr : Z := 8.

Definition in_int (z : Z) : bool := (min_int <=? z) && (z <=? max_int).

(** ** Memory *)

Definition loc := positive.

Inductive ptr : Type :=
  | NULL
  | Ptr (l : loc).

Global Instance ptr_eq_dec : EqDecision ptr.
Proof. solve_decision. Defined.

(** [!p] of the C source. *)
Definition is_null (p : ptr) : bool :=
  match p with NULL => true | Ptr _ => false end.

(** [struct Territory], field by field. *)
Record Territory : Type := mkTerritory {
  name : ptr;        (* char *name *)
  owner : Z;         (* int owner *)
  armies : Z;        (* int armies *)
  nNeighbors : Z;    (* int nNeighbors *)
  neighbors : ptr    (* struct Territory **neighbors *)
}.

(** [struct Mission]. *)
Record Mission : Type := mkMission {
  description : ptr; (* char *description *)
  targetOwner : Z    (* int targetOwner *)
}.

Definition set_name (v : ptr) (t : Territory) : Territory :=
  mkTerritory v (owner t) (armies t) (nNeighbors t) (neighbors t).
Definition set_owner (v : Z) (t : Territory) : Territory :=
  mkTerritory (name t) v (armies t) (nNeighbors t) (neighbors t).
Definition set_armies (v : Z) (t : Territory) : Territory :=
  mkTerritory (name t) (owner t) v (nNeighbors t) (neighbors t).
Definition set_nNeighbors (v : Z) (t : Territory) : Territory :=
  mkTerritory (name t) (owner t) (armies t) v (neighbors t).
Definition set_neighbors (v : ptr) (t : Territory) : Territory :=
  mkTerritory (name t) (owner t) (armies t) (nNeighbors t) v.
Definition set_description (v : ptr) (m : Mission) : Mission :=
  mkMission v (targetOwner m).
Definition set_targetOwner (v : Z) (m : Mission) : Mission :=
  mkMission (description m) v.

(** One allocated block.  A cell of a pointer array is [None] until it is
    first written (the indeterminate content [malloc]/[realloc] hand out). *)
Inductive block : Type :=
  | BTerritory (t : Territory)
  | BMission (m : Mission)
  | BChars (s : string)
  | BPtrs (cs : list (option ptr)).

(** What the program writes to the console, one constructor per format
    string of the source. *)
Inductive msg : Type :=
  | MsgRolagem (attackRoll defendRoll : Z)  (* "Rolagem atacante: %d | defensor: %d" *)
  | MsgConquistado (nome : string)          (* "Território %s conquistado!" *)
  | MsgPerde (nome : string) (restam : Z)   (* "%s perde 1 exército (restam %d)" *)
  | MsgPerror (what : string).              (* perror(what) *)

Record world : Type := mkWorld {
  heap : gmap loc block;
  console : list msg
}.

Definition set_heap (h : gmap loc block) (w : world) : world :=
  mkWorld h (console w).

(** ** The monad *)

Inductive outcome (A : Type) : Type :=
  | Ret (a : A) (w : world)
  | Exit (code : Z) (w : world)
  | Undef.
Arguments Ret {A} a w.
Arguments Exit {A} code w.
Arguments Undef {A}.

Definition M (A : Type) : Type := world -> outcome A.

Definition ret {A} (a : A) : M A := fun w => Ret a w.

Definition bind {A B} (m : M A) (k : A -> M B) : M B := fun w =>
  match m w with
  | Ret a w' => k a w'
  | Exit c w' => Exit c w'
  | Undef => Undef
  end.

Definition undef {A} : M A := fun _ => Undef.

(** [exit(code)]. *)
Definition exit {A} (code : Z) : M A := fun w => Exit code w.

Declare Scope war_scope.
Delimit Scope war_scope with war.
Notation "x <- m ;; k" := (bind m (fun x => k))
  (at level 100, m at next level, right associativity) : war_scope.
Notation "m ;; k" := (bind m (fun _ => k))
  (at level 100, right associativity) : war_scope.
Local Open Scope war_scope.

Definition EXIT_FAILURE : Z := 1.

(** ** Primitive operations *)

(** The result of an [int] computation; leaving the range is undefined. *)
Definition int_val (z : Z) : M Z :=
  if in_int z then ret z else undef.

Definition printf (m : msg) : M unit := fun w =>
  Ret tt (mkWorld (heap w) (console w ++ [m])).

Definition perror (s : string) : M unit := printf (MsgPerror s).

Definition load (p : ptr) : M block := fun w =>
  match p with
  | NULL => Undef
  | Ptr l => match heap w !! l with Some b => Ret b w | None => Undef end
  end.

Definition store (p : ptr) (b : block) : M unit := fun w =>
  match p with
  | NULL => Undef
  | Ptr l => match heap w !! l with
             | Some _ => Ret tt (set_heap (<[l := b]> (heap w)) w)
             | None => Undef
             end
  end.

(** [*p] for a [Territory *p]. *)
Definition get_territory (p : ptr) : M Territory :=
  b <- load p ;;
  match b with BTerritory t => ret t | _ => undef end.

(** [p->field = v], given as the field update. *)
Definition set_field (p : ptr) (f : Territory -> Territory) : M unit :=
  t <- get_territory p ;; store p (BTerritory (f t)).

Definition get_mission (p : ptr) : M Mission :=
  b <- load p ;;
  match b with BMission m => ret m | _ => undef end.

Definition set_mfield (p : ptr) (f : Mission -> Mission) : M unit :=
  m <- get_mission p ;; store p (BMission (f m)).

(** The text a [char *] points to, as [%s] and [strlen] read it. *)
Definition get_chars (p : ptr) : M string :=
  b <- load p ;;
  match b with BChars s => ret s | _ => undef end.

(** [strcpy(dst, s)] into a character block. *)
Definition strcpy (dst : ptr) (s : string) : M unit :=
  _ <- get_chars dst ;; store dst (BChars s).

Definition get_cells (p : ptr) : M (list (option ptr)) :=
  b <- load p ;;
  match b with BPtrs cs => ret cs | _ => undef end.

(** [a[i]] read from a pointer array. *)
Definition read_cell (a : ptr) (i : Z) : M ptr :=
  cs <- get_cells a ;;
  if 0 <=? i then
    match cs !! Z.to_nat i with
    | Some (Some v) => ret v
    | _ => undef
    end
  else undef.

(** [a[i] = v]. *)
Definition write_cell (a : ptr) (i : Z) (v : ptr) : M unit :=
  cs <- get_cells a ;;
  if (0 <=? i) && (i <? Z.of_nat (length cs)) then
    store a (BPtrs (<[Z.to_nat i := Some v]> cs))
  else undef.

(** [malloc]: when the allocator succeeds ([ok]) a fresh location holds the
    block [b]; otherwise the result is [NULL] and memory is unchanged. *)
Definition malloc (ok : bool) (b : block) : M ptr := fun w =>
  if ok then
    let l := fresh (dom (heap w)) in
    Ret (Ptr l) (set_heap (<[l := b]> (heap w)) w)
  else Ret NULL w.

(** [free(p)]: [p] must be [NULL] or the address of a live block. *)
Definition free (p : ptr) : M unit := fun w =>
  match p with
  | NULL => Ret tt w
  | Ptr l => match heap w !! l with
             | Some _ => Ret tt (set_heap (delete l (heap w)) w)
             | None => Undef
             end
  end.

(** Cells of the array obtained by resizing [cs] to [n] cells. *)
Definition resize_cells (cs : list (option ptr)) (n : nat) : list (option ptr) :=
  take n cs ++ replicate (n - length cs) None.

(** [realloc(p, bytes)] for an array of pointers.  A request of zero bytes
    is implementation-defined and left out of the model.  On success the
    old cells are kept up to the new size, in a block that may have moved;
    on failure the result is [NULL] and the old block stays. *)
Definition realloc (ok : bool) (p : ptr) (bytes : Z) : M ptr :=
  if bytes =? 0 then undef
  else if ok then
    cs <- (if is_null p then ret [] else get_cells p) ;;
    free p ;;
    malloc true (BPtrs (resize_cells cs (Z.to_nat (bytes / sizeof_ptr))))
  else ret NULL.

(** ** The functions of war.c *)

(** [criarTerritorio] (lines 29-47).  [ok_t] and [ok_name] say whether the
    two [malloc] calls succeed.  The fresh struct is indeterminate: no field
    is read before the function has stored it. *)
Definition criarTerritorio (ok_t ok_name : bool)
    (nome : string) (owner_ armies_ : Z) : M ptr :=
  t <- malloc ok_t (BTerritory (mkTerritory NULL 0 0 0 NULL)) ;;
  if is_null t then
    perror "malloc Territory" ;; exit EXIT_FAILURE
  else
    p <- malloc ok_name (BChars EmptyString) ;;
    set_field t (set_name p) ;;
    tr <- get_territory t ;;
    if is_null (name tr) then
      perror "malloc name" ;; free t ;; exit EXIT_FAILURE
    else
      strcpy (name tr) nome ;;
      set_field t (set_owner owner_) ;;
      set_field t (set_armies armies_) ;;
      set_field t (set_nNeighbors 0) ;;
      set_field t (set_neighbors NULL) ;;
      ret t.

(** [adicionarVizinho] (lines 50-57).  The byte count is computed as the
    source does: [t->nNeighbors + 1] in [int], converted to [size_t] and
    multiplied by the pointer size modulo [2^64]. *)
Definition adicionarVizinho (ok : bool) (t vizinho : ptr) : M unit :=
  tr <- get_territory t ;;
  n1 <- int_val (nNeighbors tr + 1) ;;
  p <- realloc ok (neighbors tr)
         ((sizeof_ptr * (n1 mod size_modulus)) mod size_modulus) ;;
  set_field t (set_neighbors p) ;;
  tr <- get_territory t ;;
  if is_null (neighbors tr) then
    perror "realloc neighbors" ;; exit EXIT_FAILURE
  else
    tr <- get_territory t ;;
    let i := nNeighbors tr in
    n1 <- int_val (nNeighbors tr + 1) ;;
    set_field t (set_nNeighbors n1) ;;
    write_cell (neighbors tr) i vizinho.

(** [criarMissao] (lines 60-75). *)
Definition criarMissao (ok_m ok_desc : bool)
    (desc : string) (targetOwner_ : Z) : M ptr :=
  m <- malloc ok_m (BMission (mkMission NULL 0)) ;;
  if is_null m then
    perror "malloc Mission" ;; exit EXIT_FAILURE
  else
    p <- malloc ok_desc (BChars EmptyString) ;;
    set_mfield m (set_description p) ;;
    mr <- get_mission m ;;
    if is_null (description mr) then
      perror "malloc desc" ;; free m ;; exit EXIT_FAILURE
    else
      strcpy (description mr) desc ;;
      set_mfield m (set_targetOwner targetOwner_) ;;
      ret m.

(** The [for] loop of [validarAtaque] (lines 96-99): [n] iterations are
    left, the index is [i]; the result is the final value of [found]. *)
Fixpoint procurar_vizinho (n : nat) (i : Z) (from to : ptr) : M Z :=
  match n with
  | O => ret 0
  | S n' =>
      f <- get_territory from ;;
      v <- read_cell (neighbors f) i ;;
      if decide (v = to) then ret 1
      else procurar_vizinho n' (i + 1) from to
  end.

(** [validarAtaque] (lines 81-102).  The loop bound [from->nNeighbors] does
    not change while the loop runs, so the loop makes
    [Z.to_nat (nNeighbors f)] iterations unless it breaks. *)
Definition validarAtaque (from to : ptr) (playerId : Z) : M Z :=
  if is_null from || is_null to then ret 0
  else
    f <- get_territory from ;;
    if negb (owner f =? playerId) then ret 0
    else
      t <- get_territory to ;;
      if owner t =? playerId then ret 0
      else
        f <- get_territory from ;;
        if armies f <? 2 then ret 0
        else
          f <- get_territory from ;;
          found <- procurar_vizinho (Z.to_nat (nNeighbors f)) 0 from to ;;
          if found =? 0 then ret 0 else ret 1.

(** [rand() % 6 + 1], for a value [r] returned by [rand()]. *)
Definition dado (r : Z) : Z := Z.rem r 6 + 1.

(** [resolverAtaque] (lines 105-128); [r1] and [r2] are the results of the
    two calls of [rand()], in order. *)
Definition resolverAtaque (r1 r2 : Z) (from to : ptr) : M unit :=
  let attackRoll := dado r1 in
  let defendRoll := dado r2 in
  printf (MsgRolagem attackRoll defendRoll) ;;
  if attackRoll >? defendRoll then
    t <- get_territory to ;;
    a <- int_val (armies t - 1) ;;
    set_field to (set_armies a) ;;
    t <- get_territory to ;;
    if armies t <=? 0 then
      nm <- get_chars (name t) ;;
      printf (MsgConquistado nm) ;;
      f <- get_territory from ;;
      set_field to (set_owner (owner f)) ;;
      f <- get_territory from ;;
      a <- int_val (armies f - 1) ;;
      set_field from (set_armies a) ;;
      set_field to (set_armies 1)
    else
      nm <- get_chars (name t) ;;
      printf (MsgPerde nm (armies t))
  else
    f <- get_territory from ;;
    a <- int_val (armies f - 1) ;;
    set_field from (set_armies a) ;;
    f <- get_territory from ;;
    nm <- get_chars (name f) ;;
    printf (MsgPerde nm (armies f)).

(** The first loop of [liberarMemoria] (lines 140-157). *)
Fixpoint liberar_territorios (n : nat) (i : Z) (territories : ptr) : M unit :=
  match n with
  | O => ret tt
  | S n' =>
      t <- read_cell territories i ;;
      (if is_null t then ret tt
       else
         tr <- get_territory t ;;
         (if negb (is_null (name tr)) then
            free (name tr) ;; set_field t (set_name NULL)
          else ret tt) ;;
         tr <- get_territory t ;;
         (if negb (is_null (neighbors tr)) then
            free (neighbors tr) ;; set_field t (set_neighbors NULL)
          else ret tt) ;;
         free t ;;
         write_cell territories i NULL) ;;
      liberar_territorios n' (i + 1) territories
  end.

(** The second loop of [liberarMemoria] (lines 165-174). *)
Fixpoint liberar_missoes (n : nat) (j : Z) (missions : ptr) : M unit :=
  match n with
  | O => ret tt
  | S n' =>
      m <- read_cell missions j ;;
      (if is_null m then ret tt
       else
         mr <- get_mission m ;;
         (if negb (is_null (description mr)) then
            free (description mr) ;; set_mfield m (set_description NULL)
          else ret tt) ;;
         free m ;;
         write_cell missions j NULL) ;;
      liberar_missoes n' (j + 1) missions
  end.

(** [if (territories) { ... }] (lines 139-161). *)
Definition liberar_registro_territorios (territories : ptr) (nTerritories : Z) : M unit :=
  if negb (is_null territories) then
    liberar_territorios (Z.to_nat nTerritories) 0 territories ;;
    free territories
  else ret tt.

(** [if (missions) { ... }] (lines 164-178). *)
Definition liberar_registro_missoes (missions : ptr) (nMissions : Z) : M unit :=
  if negb (is_null missions) then
    liberar_missoes (Z.to_nat nMissions) 0 missions ;;
    free missions
  else ret tt.

(** [liberarMemoria] (lines 137-182).  The final [territories = NULL] and
    [missions = NULL] assign to the parameters only and change no state. *)
Definition liberarMemoria (territories : ptr) (nTerritories : Z)
    (missions : ptr) (nMissions : Z) : M unit :=
  liberar_registro_territorios territories nTerritories ;;
  liberar_registro_missoes missions nMissions.

(** ** Reading a world *)

(** The territory a pointer designates, if it designates one. *)
Definition territory_at (w : world) (p : ptr) : option Territory :=
  match p with
  | NULL => None
  | Ptr l => match heap w !! l with Some (BTerritory t) => Some t | _ => None end
  end.

(** The text a pointer designates. *)
Definition text_at (w : world) (p : ptr) : option string :=
  match p with
  | NULL => None
  | Ptr l => match heap w !! l with Some (BChars s) => Some s | _ => None end
  end.

(** The pointer array a pointer designates. *)
Definition cells_at (w : world) (p : ptr) : option (list (option ptr)) :=
  match p with
  | NULL => None
  | Ptr l => match heap w !! l with Some (BPtrs cs) => Some cs | _ => None end
  end.

(** The neighbour sequence of a territory: the first [nNeighbors] cells of
    its array, all of them written.  A territory without an array
    ([neighbors = NULL]) has the empty sequence, provided its count is 0. *)
Definition neighbor_seq (w : world) (t : Territory) : option (list ptr) :=
  cs ← (if is_null (neighbors t) then Some [] else cells_at w (neighbors t));
  let n := Z.to_nat (nNeighbors t) in
  if decide (n ≤ length cs)%nat then mapM id (take n cs) else None.

(** The messages printed between two worlds. *)
Definition printed (w w' : world) (ms : list msg) : Prop :=
  console w' = console w ++ ms.

(** Every territory of the world has a non-negative army count. *)
Definition armies_nonneg (w : world) : Prop :=
  forall p x, territory_at w p = Some x -> 0 <= armies x.

(** The world before [main] has allocated anything. *)
Definition mundo_vazio : world := mkWorld ∅ [].

(** The map [main] builds (lines 189-201) when every allocation succeeds:
    the registry array, three territories and four directed edges. *)
Definition montar_mapa : M (ptr * (ptr * ptr * ptr)) :=
  ts <- malloc true (BPtrs (replicate 3 None)) ;;
  a <- criarTerritorio true true "Amazonia" 1 5 ;;
  write_cell ts 0 a ;;
  b <- criarTerritorio true true "Sertao" 2 3 ;;
  write_cell ts 1 b ;;
  c <- criarTerritorio true true "Litoral" 0 2 ;;
  write_cell ts 2 c ;;
  adicionarVizinho true a b ;;
  adicionarVizinho true b a ;;
  adicionarVizinho true b c ;;
  adicionarVizinho true c b ;;
  ret (ts, (a, b, c)).

Definition mundo_exemplo : world :=
  match montar_mapa mundo_vazio with
  | Ret _ w => w
  | _ => mundo_vazio
  end.

(** The three territories of [mundo_exemplo], where [main] has put them. *)
Definition p_amazonia : ptr := Ptr 2%positive.
Definition p_sertao : ptr := Ptr 4%positive.
Definition p_litoral : ptr := Ptr 6%positive.

Definition amazonia : Territory :=
  mkTerritory (Ptr 3%positive) 1 5 1 (Ptr 8%positive).
Definition sertao : Territory :=
  mkTerritory (Ptr 5%positive) 2 3 2 (Ptr 9%positive).
Definition litoral : Territory :=
  mkTerritory (Ptr 7%positive) 0 2 1 (Ptr 10%positive).

(** A border with a single defender: Amazonia (player 1, five armies)
    next to a Litoral held by one neutral army. *)
Definition montar_cerco : M (ptr * ptr) :=
  a <- criarTerritorio true true "Amazonia" 1 5 ;;
  c <- criarTerritorio true true "Litoral" 0 1 ;;
  adicionarVizinho true a c ;;
  ret (a, c).

Definition mundo_cerco : world :=
  match montar_cerco mundo_vazio with
  | Ret _ w => w
  | _ => mundo_vazio
  end.

Definition p_atacante : ptr := Ptr 1%positive.
Definition p_defensor : ptr := Ptr 3%positive.

Definition atacante : Territory :=
  mkTerritory (Ptr 2%positive) 1 5 1 (Ptr 5%positive).
Definition defensor : Territory :=
  mkTerritory (Ptr 4%positive) 0 1 0 NULL.

(** ** Combat in closed form *)

(** The world after a combat between two distinct territories, in closed
    form: one store per modified struct and the lines printed. *)
Definition apos_combate (w : world) (lf lt : loc) (f t : Territory)
    (nf nt : string) (r1 r2 : Z) : world :=
  if dado r1 >? dado r2 then
    if armies t - 1 <=? 0 then
      mkWorld (<[lt := BTerritory (set_armies 1 (set_owner (owner f) t))]>
                 (<[lf := BTerritory (set_armies (armies f - 1) f)]> (heap w)))
              (console w ++ [MsgRolagem (dado r1) (dado r2); MsgConquistado nt])
    else
      mkWorld (<[lt := BTerritory (set_armies (armies t - 1) t)]> (heap w))
              (console w ++ [MsgRolagem (dado r1) (dado r2);
                             MsgPerde nt (armies t - 1)])
  else
    mkWorld (<[lf := BTerritory (set_armies (armies f - 1) f)]> (heap w))
            (console w ++ [MsgRolagem (dado r1) (dado r2);
                           MsgPerde nf (armies f - 1)]).

(** The two structs after the combat. *)
Definition from_apos (f t : Territory) (r1 r2 : Z) : Territory :=
  if dado r1 >? dado r2 then
    if armies t - 1 <=? 0 then set_armies (armies f - 1) f else f
  else set_armies (armies f - 1) f.

Definition to_apos (f t : Territory) (r1 r2 : Z) : Territory :=
  if dado r1 >? dado r2 then
    if armies t - 1 <=? 0 then set_armies 1 (set_owner (owner f) t)
    else set_armies (armies t - 1) t
  else t.

(** The lines printed by the combat. *)
Definition linhas_combate (f t : Territory) (nf nt : string) (r1 r2 : Z) : list msg :=
  MsgRolagem (dado r1) (dado r2) ::
  (if dado r1 >? dado r2 then
     if armies t - 1 <=? 0 then [MsgConquistado nt]
     else [MsgPerde nt (armies t - 1)]
   else [MsgPerde nf (armies f - 1)]).

(** ** Construction in closed form *)

(** The world after a successful [criarTerritorio]: the struct at the first
    fresh location, its name at the next one. *)
Definition apos_criar (w : world) (nome : string) (owner_ armies_ : Z)
    : loc * world :=
  let l := fresh (dom (heap w)) in
  let l2 := fresh (dom (<[l := BTerritory (mkTerritory NULL 0 0 0 NULL)]> (heap w))) in
  (l, mkWorld (<[l := BTerritory (mkTerritory (Ptr l2) owner_ armies_ 0 NULL)]>
                 (<[l2 := BChars nome]> (heap w)))
              (console w)).

(** The heap once the block [p] points to has been handed back. *)
Definition sem_bloco (h : gmap loc block) (p : ptr) : gmap loc block :=
  match p with
  | NULL => h
  | Ptr a => delete a h
  end.

(** The world after a successful [adicionarVizinho] on the territory [tr]
    at [lt], whose neighbour sequence was [ns]: the array has moved to a
    fresh block that holds [ns] followed by the new neighbour. *)
Definition apos_vizinho (w : world) (lt : loc) (tr : Territory)
    (ns : list ptr) (vizinho : ptr) : world :=
  let h1 := sem_bloco (heap w) (neighbors tr) in
  let l' := fresh (dom h1) in
  mkWorld (<[l' := BPtrs (Some <$> (ns ++ [vizinho]))]>
             (<[lt := BTerritory (set_nNeighbors (nNeighbors tr + 1)
                                    (set_neighbors (Ptr l') tr))]> h1))
          (console w).

(** ** Missions and registries *)

(** The mission a pointer designates, if it designates one. *)
Definition mission_at (w : world) (p : ptr) : option Mission :=
  match p with
  | NULL => None
  | Ptr l => match heap w !! l with Some (BMission m) => Some m | _ => None end
  end.

(** Successive calls of [adicionarVizinho] on one territory, as [main] makes
    them (lines 198-201), every reallocation succeeding. *)
Fixpoint adicionarVizinhos (t : ptr) (vs : list ptr) : M unit :=
  match vs with
  | [] => ret tt
  | v :: vs' => adicionarVizinho true t v ;; adicionarVizinhos t vs'
  end.

(** A command that only reads: whenever it returns, the world is the one it
    started from and the result satisfies [P]; it never ends the process. *)
Definition reads {A} (P : A -> Prop) (m : M A) : Prop :=
  forall w,
    match m w with
    | Ret a w' => w' = w /\ P a
    | Exit _ _ => False
    | Undef => True
    end.

(** The block a pointer field owns, if any. *)
Definition ptr_locs (p : ptr) : list loc :=
  match p with NULL => [] | Ptr l => [l] end.

(** A slot of a registry array is [NULL] or the address of an entity; the
    slot is described by the address together with the struct found there. *)
Definition slot_ptr {A} (e : option (loc * A)) : ptr :=
  match e with None => NULL | Some (l, _) => Ptr l end.

(** The blocks [liberarMemoria] releases for one slot, in release order:
    name, neighbour array and struct of a territory; description and struct
    of a mission. *)
Definition territorio_locs (e : option (loc * Territory)) : list loc :=
  match e with
  | None => []
  | Some (l, t) => ptr_locs (name t) ++ ptr_locs (neighbors t) ++ [l]
  end.

Definition missao_locs (e : option (loc * Mission)) : list loc :=
  match e with
  | None => []
  | Some (l, m) => ptr_locs (description m) ++ [l]
  end.

(** A registry as [liberarMemoria] expects it (lines 130-136): the pointer
    is [NULL], or it designates an array whose first [n] cells hold the
    slots [es]; every entity is allocated with the struct given, and so is
    every block its slot owns.  [inj] wraps a struct into its block. *)
Definition registro_ok {A} (inj : A -> block)
    (locs : option (loc * A) -> list loc)
    (w : world) (p : ptr) (n : Z) (es : list (option (loc * A))) : Prop :=
  match p with
  | NULL => es = []
  | Ptr a =>
      exists cs,
        heap w !! a = Some (BPtrs cs) /\
        length es = Z.to_nat n /\
        take (length es) cs = (fun e => Some (slot_ptr e)) <$> es /\
        (forall l x, Some (l, x) ∈ es -> heap w !! l = Some (inj x)) /\
        (forall k, k ∈ es ≫= locs -> is_Some (heap w !! k))
  end.

Definition registro_territorios :=
  registro_ok BTerritory territorio_locs.

Definition registro_missoes :=
  registro_ok BMission missao_locs.

(** Everything a registry owns: the blocks of its slots and the array. *)
Definition pegada {A} (locs : option (loc * A) -> list loc)
    (p : ptr) (es : list (option (loc * A))) : list loc :=
  (es ≫= locs) ++ ptr_locs p.

(** Both registries as [main] builds them (lines 189-209), every
    allocation succeeding: the map of [montar_mapa], then the mission array
    and its two missions. *)
Definition montar_registros : M (ptr * ptr) :=
  r <- montar_mapa ;;
  ms <- malloc true (BPtrs (replicate 2 None)) ;;
  m0 <- criarMissao true true "Conquistar 3 territorios da regiao Norte" 0 ;;
  write_cell ms 0 m0 ;;
  m1 <- criarMissao true true "Eliminar jogador 2" 2 ;;
  write_cell ms 1 m1 ;;
  ret (r.1, ms).

Definition mundo_completo : world :=
  match montar_registros mundo_vazio with
  | Ret _ w => w
  | _ => mundo_vazio
  end.

(** The slots of the two registries of [mundo_completo]. *)
Definition slots_territorios : list (option (loc * Territory)) :=
  [Some (2%positive, amazonia); Some (4%positive, sertao);
   Some (6%positive, litoral)].

Definition slots_missoes : list (option (loc * Mission)) :=
  [Some (12%positive, mkMission (Ptr 13%positive) 0);
   Some (14%positive, mkMission (Ptr 15%positive) 2)].

(** A slot after a combat between the territories at [lf] and [lt]. *)
Definition slot_apos_combate (lf lt : loc) (f' t' : Territory)
    (e : option (loc * Territory)) : option (loc * Territory) :=
  match e with
  | None => None
  | Some (l, x) =>
      Some (l, if decide (l = lf) then f'
               else if decide (l = lt) then t' else x)
  end.

(** A border with an empty target: Amazonia (player 1, five armies) next
    to a Litoral created without armies. *)
Definition montar_deserto : M (ptr * ptr) :=
  a <- criarTerritorio true true "Amazonia" 1 5 ;;
  c <- criarTerritorio true true "Litoral" 0 0 ;;
  adicionarVizinho true a c ;;
  ret (a, c).

Definition mundo_deserto : world :=
  match montar_deserto mundo_vazio with
  | Ret _ w => w
  | _ => mundo_vazio
  end.

Definition deserto : Territory :=
  mkTerritory (Ptr 4%positive) 0 0 0 NULL.

(** ** Stepping through monadic code *)

Lemma bind_Ret {A B} (m : M A) (k : A -> M B) w a w' :
  m w = Ret a w' -> bind m k w = k a w'.
Proof. intros H. unfold bind. by rewrite H. Qed.

Lemma bind_ret_r (m : M unit) w : bind m (fun _ => ret tt) w = m w.
Proof. unfold bind, ret. destruct (m w) as [[] ?| |]; done. Qed.

Lemma in_int_spec z : in_int z = true <-> min_int <= z <= max_int.
Proof. unfold in_int. rewrite andb_true_iff, !Z.leb_le. tauto. Qed.

Lemma int_val_ok z w : min_int <= z <= max_int -> int_val z w = Ret z w.
Proof. intros H. unfold int_val. by rewrite (proj2 (in_int_spec z) H). Qed.

Lemma get_territory_ok w p t :
  territory_at w p = Some t -> get_territory p w = Ret t w.
Proof.
  unfold territory_at, get_territory, bind, load.
  destruct p as [|l]; [done|].
  destruct (heap w !! l) as [[]|]; naive_solver.
Qed.

Lemma set_field_ok w l t f :
  territory_at w (Ptr l) = Some t ->
  set_field (Ptr l) f w = Ret tt (set_heap (<[l := BTerritory (f t)]> (heap w)) w).
Proof.
  intros H. unfold set_field. rewrite (bind_Ret _ _ _ _ _ (get_territory_ok _ _ _ H)).
  unfold store. simpl in H. destruct (heap w !! l) as [[]|]; naive_solver.
Qed.

Lemma get_chars_ok w p s : text_at w p = Some s -> get_chars p w = Ret s w.
Proof.
  unfold text_at, get_chars, bind, load.
  destruct p as [|l]; [done|].
  destruct (heap w !! l) as [[]|]; naive_solver.
Qed.

Lemma get_cells_ok w p cs : cells_at w p = Some cs -> get_cells p w = Ret cs w.
Proof.
  unfold cells_at, get_cells, bind, load.
  destruct p as [|l]; [done|].
  destruct (heap w !! l) as [[]|]; naive_solver.
Qed.

Lemma printf_ok m w : printf m w = Ret tt (mkWorld (heap w) (console w ++ [m])).
Proof. done. Qed.

Lemma territory_at_Some w p t :
  territory_at w p = Some t ->
  exists l, p = Ptr l /\ heap w !! l = Some (BTerritory t).
Proof.
  destruct p as [|l]; simpl; [done|].
  destruct (heap w !! l) as [[]|] eqn:E; intros; simplify_eq; eauto.
Qed.

Lemma text_at_Some w p s :
  text_at w p = Some s ->
  exists l, p = Ptr l /\ heap w !! l = Some (BChars s).
Proof.
  destruct p as [|l]; simpl; [done|].
  destruct (heap w !! l) as [[]|] eqn:E; intros; simplify_eq; eauto.
Qed.

Lemma cells_at_Some w p cs :
  cells_at w p = Some cs ->
  exists l, p = Ptr l /\ heap w !! l = Some (BPtrs cs).
Proof.
  destruct p as [|l]; simpl; [done|].
  destruct (heap w !! l) as [[]|] eqn:E; intros; simplify_eq; eauto.
Qed.

(** [view] solves a goal about what a pointer designates in a world given
    by explicit stores; [prim] runs one primitive; [step] runs the first
    command of a sequence. *)
Ltac view := simpl; by simplify_map_eq.

Ltac prim :=
  first
    [ apply printf_ok
    | apply int_val_ok; unfold min_int, max_int in *; simpl in *; lia
    | apply get_territory_ok; view
    | apply set_field_ok; view
    | apply get_chars_ok; view
    | apply get_cells_ok; view ].

Ltac step :=
  erewrite bind_Ret by prim; cbv beta; unfold set_heap; simpl.

(** ** Combat: what [resolverAtaque] leaves behind *)

Section Combate.
Variables (w : world) (lf lt : loc) (f t : Territory) (nf nt : string).
Hypothesis Hdistinct : lf ≠ lt.
Hypothesis Hfrom : territory_at w (Ptr lf) = Some f.
Hypothesis Hto : territory_at w (Ptr lt) = Some t.
Hypothesis Hnf : text_at w (name f) = Some nf.
Hypothesis Hnt : text_at w (name t) = Some nt.
Hypothesis Hfa : min_int < armies f <= max_int.
Hypothesis Hta : min_int < armies t <= max_int.

Lemma resolverAtaque_run r1 r2 :
  resolverAtaque r1 r2 (Ptr lf) (Ptr lt) w
  = Ret tt (apos_combate w lf lt f t nf nt r1 r2).
Proof using All.
  destruct (territory_at_Some _ _ _ Hfrom) as (? & [= <-] & Hlf).
  destruct (territory_at_Some _ _ _ Hto) as (? & [= <-] & Hlt).
  destruct (text_at_Some _ _ _ Hnf) as (lnf & Enf & Hlnf).
  destruct (text_at_Some _ _ _ Hnt) as (lnt & Ent & Hlnt).
  assert (lnt ≠ lt) by congruence. assert (lnt ≠ lf) by congruence.
  assert (lnf ≠ lt) by congruence. assert (lnf ≠ lf) by congruence.
  clear Hfrom Hto Hnf Hnt.
  destruct w as [h c], f as [fn fo fa fk fv], t as [tn to ta tk tv].
  simpl in *. subst fn tn.
  unfold resolverAtaque, apos_combate. step.
  destruct (dado r1 >? dado r2).
  - do 4 step. destruct (ta - 1 <=? 0).
    + do 7 step. erewrite set_field_ok by view. unfold set_heap; simpl.
      rewrite <- !(assoc_L (++)). simpl. do 2 f_equal.
      apply map_eq. intros i.
      destruct (decide (i = lt)) as [->|]; [by simplify_map_eq|].
      destruct (decide (i = lf)) as [->|]; by simplify_map_eq.
    + step. rewrite printf_ok. simpl.
      rewrite <- !(assoc_L (++)). done.
  - do 5 step. rewrite printf_ok. simpl.
    rewrite <- !(assoc_L (++)). done.
Qed.
End Combate.

Lemma apos_combate_from w lf lt f t nf nt r1 r2 :
  lf ≠ lt ->
  territory_at w (Ptr lf) = Some f ->
  territory_at (apos_combate w lf lt f t nf nt r1 r2) (Ptr lf)
  = Some (from_apos f t r1 r2).
Proof.
  intros Hne Hfrom.
  destruct (territory_at_Some _ _ _ Hfrom) as (? & [= <-] & Hlf).
  unfold apos_combate, from_apos.
  repeat case_match; simpl; by simplify_map_eq.
Qed.

Lemma apos_combate_to w lf lt f t nf nt r1 r2 :
  lf ≠ lt ->
  territory_at w (Ptr lt) = Some t ->
  territory_at (apos_combate w lf lt f t nf nt r1 r2) (Ptr lt)
  = Some (to_apos f t r1 r2).
Proof.
  intros Hne Hto.
  destruct (territory_at_Some _ _ _ Hto) as (? & [= <-] & Hlt).
  unfold apos_combate, to_apos.
  repeat case_match; simpl; by simplify_map_eq.
Qed.

Lemma apos_combate_other w lf lt f t nf nt r1 r2 l :
  l ≠ lf -> l ≠ lt ->
  heap (apos_combate w lf lt f t nf nt r1 r2) !! l = heap w !! l.
Proof.
  intros. unfold apos_combate.
  repeat case_match; simpl; by simplify_map_eq.
Qed.

Lemma apos_combate_dom w lf lt f t nf nt r1 r2 :
  territory_at w (Ptr lf) = Some f ->
  territory_at w (Ptr lt) = Some t ->
  dom (heap (apos_combate w lf lt f t nf nt r1 r2)) = dom (heap w).
Proof.
  intros Hfrom Hto.
  destruct (territory_at_Some _ _ _ Hfrom) as (? & [= <-] & Hlf).
  destruct (territory_at_Some _ _ _ Hto) as (? & [= <-] & Hlt).
  unfold apos_combate.
  repeat case_match; simpl;
    rewrite !dom_insert_lookup_L; try done;
    destruct (decide (lt = lf)) as [->|]; simplify_map_eq; eauto.
Qed.

Lemma apos_combate_console w lf lt f t nf nt r1 r2 :
  printed w (apos_combate w lf lt f t nf nt r1 r2)
    (linhas_combate f t nf nt r1 r2).
Proof.
  unfold printed, apos_combate, linhas_combate.
  repeat case_match; done.
Qed.

(** A combat replaces territory structs by territory structs and touches
    nothing else, so texts and pointer arrays read the same afterwards. *)
Lemma apos_combate_block w lf lt f t nf nt r1 r2 l :
  territory_at w (Ptr lf) = Some f ->
  territory_at w (Ptr lt) = Some t ->
  heap (apos_combate w lf lt f t nf nt r1 r2) !! l = heap w !! l \/
  exists x y, heap (apos_combate w lf lt f t nf nt r1 r2) !! l = Some (BTerritory x)
              /\ heap w !! l = Some (BTerritory y).
Proof.
  intros Hfrom Hto.
  destruct (territory_at_Some _ _ _ Hfrom) as (? & [= <-] & Hlf).
  destruct (territory_at_Some _ _ _ Hto) as (? & [= <-] & Hlt).
  destruct (decide (l = lt)) as [->|Hl1];
    [|destruct (decide (l = lf)) as [->|Hl2]].
  - right. unfold apos_combate.
    repeat case_match; simpl;
      destruct (decide (lt = lf)) as [->|]; simplify_map_eq; eauto.
  - right. unfold apos_combate. repeat case_match; simpl; simplify_map_eq; eauto.
  - left. by apply apos_combate_other.
Qed.

Lemma apos_combate_text w lf lt f t nf nt r1 r2 p :
  territory_at w (Ptr lf) = Some f ->
  territory_at w (Ptr lt) = Some t ->
  text_at (apos_combate w lf lt f t nf nt r1 r2) p = text_at w p.
Proof.
  intros Hfrom Hto. destruct p as [|l]; [done|]. simpl.
  destruct (apos_combate_block w lf lt f t nf nt r1 r2 l Hfrom Hto)
    as [->|(x & y & -> & ->)]; done.
Qed.

Lemma apos_combate_cells w lf lt f t nf nt r1 r2 p :
  territory_at w (Ptr lf) = Some f ->
  territory_at w (Ptr lt) = Some t ->
  cells_at (apos_combate w lf lt f t nf nt r1 r2) p = cells_at w p.
Proof.
  intros Hfrom Hto. destruct p as [|l]; [done|]. simpl.
  destruct (apos_combate_block w lf lt f t nf nt r1 r2 l Hfrom Hto)
    as [->|(x & y & -> & ->)]; done.
Qed.

Lemma neighbor_seq_ext w w' x y :
  (forall p, cells_at w' p = cells_at w p) ->
  nNeighbors x = nNeighbors y -> neighbors x = neighbors y ->
  neighbor_seq w' x = neighbor_seq w y.
Proof. intros H Hn Hv. unfold neighbor_seq. by rewrite Hn, Hv, H. Qed.

(** A die shows 1 to 6 for every value [rand()] can return. *)
Lemma dado_range r : 0 <= r -> 1 <= dado r <= 6.
Proof.
  intros Hr. unfold dado.
  pose proof (Z.rem_bound_pos r 6 Hr ltac:(lia)). lia.
Qed.

(** Every face is shown by some value of [rand()]. *)
Lemma dado_surj a : 1 <= a <= 6 -> dado (a - 1) = a.
Proof. intros Ha. unfold dado. rewrite Z.rem_small by lia. lia. Qed.

(** What a successful validation says about the two structs. *)
Lemma validarAtaque_true_inv w w0 from to p f t :
  territory_at w from = Some f ->
  territory_at w to = Some t ->
  validarAtaque from to p w = Ret 1 w0 ->
  owner f = p /\ owner t ≠ p /\ 2 <= armies f.
Proof.
  intros Hfrom Hto.
  destruct (territory_at_Some _ _ _ Hfrom) as (lf & -> & Hlf).
  destruct (territory_at_Some _ _ _ Hto) as (lt & -> & Hlt).
  unfold validarAtaque. simpl.
  rewrite (bind_Ret _ _ _ _ _ (get_territory_ok _ _ _ Hfrom)).
  destruct (owner f =? p) eqn:Ho; simpl; [|done].
  rewrite (bind_Ret _ _ _ _ _ (get_territory_ok _ _ _ Hto)).
  destruct (owner t =? p) eqn:Ho'; [done|].
  rewrite (bind_Ret _ _ _ _ _ (get_territory_ok _ _ _ Hfrom)).
  destruct (armies f <? 2) eqn:Ha; [done|].
  intros _. apply Z.eqb_eq in Ho. apply Z.eqb_neq in Ho'. apply Z.ltb_ge in Ha.
  done.
Qed.

(** ** Claims about [resolverAtaque] *)

(** C2.  For two distinct territories [from] and [to] and rolls
    [attackRoll = dado r1], [defendRoll = dado r2] (both in 1..6):
    when [attackRoll > defendRoll] the defender loses one army and, if that
    leaves [to.armies <= 0], [to.owner] becomes [from.owner], [from] loses
    one army and [to.armies] is set to exactly 1; when
    [attackRoll <= defendRoll] the attacker loses one army and [to] is
    left unchanged. *)
Theorem resolverAtaque_outcome w from to f t nf nt r1 r2 :
  from ≠ to ->
  territory_at w from = Some f ->
  territory_at w to = Some t ->
  text_at w (name f) = Some nf ->
  text_at w (name t) = Some nt ->
  min_int < armies f <= max_int ->
  min_int < armies t <= max_int ->
  0 <= r1 -> 0 <= r2 ->
  exists w' f' t',
    resolverAtaque r1 r2 from to w = Ret tt w' /\
    territory_at w' from = Some f' /\
    territory_at w' to = Some t' /\
    1 <= dado r1 <= 6 /\ 1 <= dado r2 <= 6 /\
    (dado r1 > dado r2 -> armies t - 1 <= 0 ->
       t' = set_armies 1 (set_owner (owner f) t) /\
       f' = set_armies (armies f - 1) f) /\
    (dado r1 > dado r2 -> 0 < armies t - 1 ->
       t' = set_armies (armies t - 1) t /\ f' = f) /\
    (dado r1 <= dado r2 ->
       f' = set_armies (armies f - 1) f /\ t' = t).
Proof.
  intros Hne Hfrom Hto Hnf Hnt Hfa Hta Hr1 Hr2.
  destruct (territory_at_Some _ _ _ Hfrom) as (lf & -> & _).
  destruct (territory_at_Some _ _ _ Hto) as (lt & -> & _).
  assert (lf ≠ lt) as Hl by congruence.
  exists (apos_combate w lf lt f t nf nt r1 r2),
    (from_apos f t r1 r2), (to_apos f t r1 r2).
  split; [by apply resolverAtaque_run|].
  split; [by apply apos_combate_from|].
  split; [by apply apos_combate_to|].
  split; [by apply dado_range|]. split; [by apply dado_range|].
  unfold from_apos, to_apos.
  destruct (Z.gtb_spec (dado r1) (dado r2));
    destruct (Z.leb_spec (armies t - 1) 0);
    repeat split; intros; first [done | lia].
Qed.

(** C3.  Comparing the state before and after a combat between two
    distinct territories: either no conquest is announced, no owner
    changes and exactly one of [from.armies], [to.armies] has decreased by
    exactly 1 (the other being unchanged); or the conquest is announced,
    [to.owner] has become [from.owner], [to.armies] is exactly 1 and
    [from.armies] has decreased by exactly 1. *)
Theorem resolverAtaque_exchange w from to f t nf nt r1 r2 :
  from ≠ to ->
  territory_at w from = Some f ->
  territory_at w to = Some t ->
  text_at w (name f) = Some nf ->
  text_at w (name t) = Some nt ->
  min_int < armies f <= max_int ->
  min_int < armies t <= max_int ->
  exists w' f' t' ms,
    resolverAtaque r1 r2 from to w = Ret tt w' /\
    territory_at w' from = Some f' /\
    territory_at w' to = Some t' /\
    printed w w' ms /\
    (((forall s, MsgConquistado s ∉ ms) /\
      owner f' = owner f /\ owner t' = owner t /\
      ((armies f' = armies f - 1 /\ armies t' = armies t) \/
       (armies f' = armies f /\ armies t' = armies t - 1)))
     \/
     (MsgConquistado nt ∈ ms /\
      owner f' = owner f /\ owner t' = owner f /\
      armies t' = 1 /\ armies f' = armies f - 1)).
Proof.
  intros Hne Hfrom Hto Hnf Hnt Hfa Hta.
  destruct (territory_at_Some _ _ _ Hfrom) as (lf & -> & _).
  destruct (territory_at_Some _ _ _ Hto) as (lt & -> & _).
  assert (lf ≠ lt) as Hl by congruence.
  exists (apos_combate w lf lt f t nf nt r1 r2),
    (from_apos f t r1 r2), (to_apos f t r1 r2),
    (linhas_combate f t nf nt r1 r2).
  split; [by apply resolverAtaque_run|].
  split; [by apply apos_combate_from|].
  split; [by apply apos_combate_to|].
  split; [by apply apos_combate_console|].
  unfold from_apos, to_apos, linhas_combate.
  destruct (dado r1 >? dado r2); [destruct (armies t - 1 <=? 0)|].
  - right. simpl. repeat split; try done.
    apply elem_of_cons. right. apply elem_of_cons. by left.
  - left. simpl. split; [|by auto].
    intros s Hs. apply elem_of_cons in Hs as [Hs|Hs]; [done|].
    apply elem_of_cons in Hs as [Hs|Hs]; [done|]. by apply elem_of_nil in Hs.
  - left. simpl. split; [|by auto].
    intros s Hs. apply elem_of_cons in Hs as [Hs|Hs]; [done|].
    apply elem_of_cons in Hs as [Hs|Hs]; [done|]. by apply elem_of_nil in Hs.
Qed.

(** C4.  In a combat between two distinct territories the conquest is
    announced, and [to.owner] becomes [from.owner], if and only if the
    attacker wins the roll and the defender's count after the one-army loss
    is [<= 0]; otherwise [to.owner] is kept.  In particular, from
    [to.armies = 1] and a winning attack roll the final state has
    [to.owner = from.owner], [to.armies = 1] and [from.armies] reduced by
    exactly 1. *)
Theorem resolverAtaque_conquest w from to f t nf nt r1 r2 :
  from ≠ to ->
  territory_at w from = Some f ->
  territory_at w to = Some t ->
  text_at w (name f) = Some nf ->
  text_at w (name t) = Some nt ->
  min_int < armies f <= max_int ->
  min_int < armies t <= max_int ->
  exists w' f' t' ms,
    resolverAtaque r1 r2 from to w = Ret tt w' /\
    territory_at w' from = Some f' /\
    territory_at w' to = Some t' /\
    printed w w' ms /\
    (MsgConquistado nt ∈ ms <-> dado r1 > dado r2 /\ armies t - 1 <= 0) /\
    (MsgConquistado nt ∈ ms -> owner t' = owner f) /\
    (MsgConquistado nt ∉ ms -> owner t' = owner t) /\
    (armies t = 1 -> dado r1 > dado r2 ->
       owner t' = owner f /\ armies t' = 1 /\ armies f' = armies f - 1).
Proof.
  intros Hne Hfrom Hto Hnf Hnt Hfa Hta.
  destruct (territory_at_Some _ _ _ Hfrom) as (lf & -> & _).
  destruct (territory_at_Some _ _ _ Hto) as (lt & -> & _).
  assert (lf ≠ lt) as Hl by congruence.
  exists (apos_combate w lf lt f t nf nt r1 r2),
    (from_apos f t r1 r2), (to_apos f t r1 r2),
    (linhas_combate f t nf nt r1 r2).
  split; [by apply resolverAtaque_run|].
  split; [by apply apos_combate_from|].
  split; [by apply apos_combate_to|].
  split; [by apply apos_combate_console|].
  unfold from_apos, to_apos, linhas_combate.
  destruct (Z.gtb_spec (dado r1) (dado r2));
    destruct (Z.leb_spec (armies t - 1) 0); simpl;
    rewrite !elem_of_cons, elem_of_nil;
    repeat split; intros; try done; try lia; intuition (first [discriminate | lia]).
Qed.

(** C5.  Combat keeps army counts non-negative.  When [from.armies >= 0]
    and [to.armies >= 0] hold before the call and
    [validarAtaque(from, to, from.owner)] has returned true, then
    [resolverAtaque] returns with [from.armies >= 0] and [to.armies >= 0];
    every count it reports on the console is non-negative; and if no
    territory of the world had a negative count before, none has one
    after. *)
Theorem resolverAtaque_armies_nonneg w w0 from to f t nf nt r1 r2 :
  territory_at w from = Some f ->
  territory_at w to = Some t ->
  text_at w (name f) = Some nf ->
  text_at w (name t) = Some nt ->
  0 <= armies f <= max_int ->
  0 <= armies t <= max_int ->
  validarAtaque from to (owner f) w = Ret 1 w0 ->
  exists w' f' t' ms,
    resolverAtaque r1 r2 from to w = Ret tt w' /\
    territory_at w' from = Some f' /\
    territory_at w' to = Some t' /\
    0 <= armies f' /\ 0 <= armies t' /\
    printed w w' ms /\
    (forall s n, MsgPerde s n ∈ ms -> 0 <= n) /\
    (armies_nonneg w -> armies_nonneg w').
Proof.
  intros Hfrom Hto Hnf Hnt Hfa Hta Hval.
  destruct (validarAtaque_true_inv _ _ _ _ _ _ _ Hfrom Hto Hval)
    as (_ & Howner & Htwo).
  destruct (territory_at_Some _ _ _ Hfrom) as (lf & -> & _).
  destruct (territory_at_Some _ _ _ Hto) as (lt & -> & _).
  assert (lf ≠ lt) as Hl by (intros ->; congruence).
  assert (min_int < 0) as Hmin by done.
  exists (apos_combate w lf lt f t nf nt r1 r2),
    (from_apos f t r1 r2), (to_apos f t r1 r2),
    (linhas_combate f t nf nt r1 r2).
  split; [apply resolverAtaque_run; try done; lia|].
  split; [by apply apos_combate_from|].
  split; [by apply apos_combate_to|].
  assert (0 <= armies (from_apos f t r1 r2)) as Hf'.
  { unfold from_apos. repeat case_match; simpl; lia. }
  assert (0 <= armies (to_apos f t r1 r2)) as Ht'.
  { unfold to_apos. destruct (dado r1 >? dado r2); [|lia].
    destruct (Z.leb_spec (armies t - 1) 0); simpl; lia. }
  split; [done|]. split; [done|].
  split; [by apply apos_combate_console|].
  split.
  - intros s n. unfold linhas_combate.
    destruct (dado r1 >? dado r2);
      [destruct (Z.leb_spec (armies t - 1) 0)|];
      rewrite !elem_of_cons, elem_of_nil;
      intros [?|[?|[]]]; simplify_eq; lia.
  - intros Hw [|l] x Hx; [done|].
    destruct (decide (l = lf)) as [->|Hlf].
    { rewrite (apos_combate_from _ _ _ _ _ _ _ _ _ Hl Hfrom) in Hx.
      by simplify_eq. }
    destruct (decide (l = lt)) as [->|Hlt].
    { rewrite (apos_combate_to _ _ _ _ _ _ _ _ _ Hl Hto) in Hx.
      by simplify_eq. }
    apply (Hw (Ptr l)). simpl in *.
    by rewrite apos_combate_other in Hx.
Qed.

(** C6.  A combat between two distinct territories changes at most
    [from.armies], [to.armies] and [to.owner] and prints text: [from.owner],
    both names (pointer and text), both neighbour counts, arrays and
    sequences are as before, no block is allocated or released, and every
    block other than the two structs (every other territory, mission, text
    and array) is unchanged. *)
Theorem resolverAtaque_frame w from to f t nf nt r1 r2 :
  from ≠ to ->
  territory_at w from = Some f ->
  territory_at w to = Some t ->
  text_at w (name f) = Some nf ->
  text_at w (name t) = Some nt ->
  min_int < armies f <= max_int ->
  min_int < armies t <= max_int ->
  exists w' f' t',
    resolverAtaque r1 r2 from to w = Ret tt w' /\
    territory_at w' from = Some f' /\
    territory_at w' to = Some t' /\
    owner f' = owner f /\
    name f' = name f /\ name t' = name t /\
    text_at w' (name f') = Some nf /\ text_at w' (name t') = Some nt /\
    nNeighbors f' = nNeighbors f /\ nNeighbors t' = nNeighbors t /\
    neighbors f' = neighbors f /\ neighbors t' = neighbors t /\
    neighbor_seq w' f' = neighbor_seq w f /\
    neighbor_seq w' t' = neighbor_seq w t /\
    dom (heap w') = dom (heap w) /\
    (forall l, Ptr l ≠ from -> Ptr l ≠ to -> heap w' !! l = heap w !! l).
Proof.
  intros Hne Hfrom Hto Hnf Hnt Hfa Hta.
  destruct (territory_at_Some _ _ _ Hfrom) as (lf & -> & _).
  destruct (territory_at_Some _ _ _ Hto) as (lt & -> & _).
  assert (lf ≠ lt) as Hl by congruence.
  exists (apos_combate w lf lt f t nf nt r1 r2),
    (from_apos f t r1 r2), (to_apos f t r1 r2).
  assert (owner (from_apos f t r1 r2) = owner f /\
          name (from_apos f t r1 r2) = name f /\
          nNeighbors (from_apos f t r1 r2) = nNeighbors f /\
          neighbors (from_apos f t r1 r2) = neighbors f) as (Ho & Hn & Hk & Hv).
  { unfold from_apos. repeat case_match; done. }
  assert (name (to_apos f t r1 r2) = name t /\
          nNeighbors (to_apos f t r1 r2) = nNeighbors t /\
          neighbors (to_apos f t r1 r2) = neighbors t) as (Hn' & Hk' & Hv').
  { unfold to_apos. repeat case_match; done. }
  split; [by apply resolverAtaque_run|].
  split; [by apply apos_combate_from|].
  split; [by apply apos_combate_to|].
  split; [done|]. split; [done|]. split; [done|].
  split; [by rewrite Hn, apos_combate_text|].
  split; [by rewrite Hn', apos_combate_text|].
  split; [done|]. split; [done|]. split; [done|]. split; [done|].
  split.
  { apply neighbor_seq_ext; [|done..]. intros p. by apply apos_combate_cells. }
  split.
  { apply neighbor_seq_ext; [|done..]. intros p. by apply apos_combate_cells. }
  split; [by apply apos_combate_dom|].
  intros l Hlf Hlt. apply apos_combate_other; congruence.
Qed.

(** ** Attack validation *)

(** The search loop over [n] cells that are all written, starting at
    index [i]: it returns 1 exactly when the target is among them. *)
Lemma procurar_vizinho_ok n : forall (i : nat) w from to f cs vs,
  territory_at w from = Some f ->
  cells_at w (neighbors f) = Some cs ->
  (i + n <= length cs)%nat ->
  mapM id (take n (drop i cs)) = Some vs ->
  procurar_vizinho n (Z.of_nat i) from to w
  = Ret (if decide (to ∈ vs) then 1 else 0) w.
Proof.
  induction n as [|n IH]; intros i w from to f cs vs Hfrom Hcs Hlen Hvs.
  - simpl in Hvs. injection Hvs as <-. rewrite decide_False; [done|]. apply not_elem_of_nil.
  - destruct (lookup_lt_is_Some_2 cs i ltac:(lia)) as [c Hc].
    rewrite (drop_S _ _ _ Hc) in Hvs. simpl in Hvs.
    destruct c as [v|]; [|done]. simpl in Hvs.
    destruct (mapM id (take n (drop (S i) cs))) as [vs'|] eqn:Hvs'; [|done].
    simpl in Hvs. injection Hvs as <-.
    simpl procurar_vizinho.
    rewrite (bind_Ret _ _ _ _ _ (get_territory_ok _ _ _ Hfrom)).
    assert (read_cell (neighbors f) (Z.of_nat i) w = Ret v w) as Hread.
    { unfold read_cell. rewrite (bind_Ret _ _ _ _ _ (get_cells_ok _ _ _ Hcs)).
      rewrite (proj2 (Z.leb_le 0 (Z.of_nat i))) by lia.
      by rewrite Nat2Z.id, Hc. }
    rewrite (bind_Ret _ _ _ _ _ Hread).
    destruct (decide (v = to)) as [->|Hv].
    + rewrite decide_True; [done|]. apply elem_of_cons. by left.
    + replace (Z.of_nat i + 1) with (Z.of_nat (S i)) by lia.
      rewrite (IH (S i) w from to f cs vs' Hfrom Hcs ltac:(lia) Hvs').
      destruct (decide (to ∈ vs')) as [Hin|Hin].
      * rewrite decide_True; [done|]. apply elem_of_cons. by right.
      * rewrite decide_False; [done|].
        intros [?|?]%elem_of_cons; congruence.
Qed.

(** The search loop run from index 0 over a readable neighbour sequence. *)
Lemma procurar_vizinho_seq w from to f ns :
  territory_at w from = Some f ->
  neighbor_seq w f = Some ns ->
  procurar_vizinho (Z.to_nat (nNeighbors f)) 0 from to w
  = Ret (if decide (to ∈ ns) then 1 else 0) w.
Proof.
  intros Hfrom Hns. unfold neighbor_seq in Hns.
  destruct (is_null (neighbors f)) eqn:Hnull; simpl in Hns.
  - case_decide as Hn; [|done]. simpl in Hn.
    assert (Z.to_nat (nNeighbors f) = 0%nat) as Hz by lia.
    rewrite Hz in *. simpl in Hns. injection Hns as <-. reflexivity.
  - destruct (cells_at w (neighbors f)) as [cs|] eqn:Hcs; [|done]. simpl in Hns.
    case_decide as Hn; [|done].
    by apply (procurar_vizinho_ok _ 0 w from to f cs ns).
Qed.

(** [validarAtaque] on two territories, in closed form. *)
Lemma validarAtaque_run w from to p f t ns :
  territory_at w from = Some f ->
  territory_at w to = Some t ->
  neighbor_seq w f = Some ns ->
  validarAtaque from to p w
  = Ret (if (owner f =? p) && negb (owner t =? p) && (2 <=? armies f)
            && bool_decide (to ∈ ns) then 1 else 0) w.
Proof.
  intros Hfrom Hto Hns.
  destruct (territory_at_Some _ _ _ Hfrom) as (lf & -> & _).
  destruct (territory_at_Some _ _ _ Hto) as (lt & -> & _).
  unfold validarAtaque. simpl.
  rewrite (bind_Ret _ _ _ _ _ (get_territory_ok _ _ _ Hfrom)).
  destruct (owner f =? p); simpl; [|done].
  rewrite (bind_Ret _ _ _ _ _ (get_territory_ok _ _ _ Hto)).
  destruct (owner t =? p); simpl; [done|].
  rewrite (bind_Ret _ _ _ _ _ (get_territory_ok _ _ _ Hfrom)).
  rewrite (Z.ltb_antisym 2 (armies f)).
  destruct (2 <=? armies f); simpl; [|done].
  rewrite (bind_Ret _ _ _ _ _ (get_territory_ok _ _ _ Hfrom)).
  rewrite (bind_Ret _ _ _ _ _ (procurar_vizinho_seq _ _ _ _ _ Hfrom Hns)).
  destruct (decide (Ptr lt ∈ ns)) as [Hin|Hin].
  - by rewrite bool_decide_eq_true_2.
  - by rewrite bool_decide_eq_false_2.
Qed.

(** C1.  For pointers [from] and [to] that are null or designate
    territories (the neighbour sequence of [from] being readable) and every
    player id [p], [validarAtaque] returns 1 or 0 and leaves the world as
    it is; it returns 1 if and only if [from] and [to] are both non-null,
    [from.owner == p], [to.owner != p], [from.armies >= 2] and [to] occurs
    in the neighbour sequence of [from]. *)
Theorem validarAtaque_iff w from to p :
  (from = NULL \/
   exists f, territory_at w from = Some f /\ is_Some (neighbor_seq w f)) ->
  (to = NULL \/ is_Some (territory_at w to)) ->
  exists r,
    validarAtaque from to p w = Ret r w /\
    (r = 0 \/ r = 1) /\
    (r = 1 <->
       from ≠ NULL /\ to ≠ NULL /\
       exists f t ns,
         territory_at w from = Some f /\
         territory_at w to = Some t /\
         neighbor_seq w f = Some ns /\
         owner f = p /\ owner t ≠ p /\ 2 <= armies f /\ to ∈ ns).
Proof.
  intros [->|(f & Hfrom & ns & Hns)] Hto.
  { exists 0. split; [done|]. split; [by left|]. split; [done|]. by intros [? _]. }
  destruct Hto as [->|[t Hto]].
  { exists 0. split.
    - unfold validarAtaque. by rewrite orb_true_r.
    - split; [by left|]. split; [done|]. by intros (_ & ? & _). }
  rewrite (validarAtaque_run w from to p f t ns Hfrom Hto Hns).
  eexists. split; [done|].
  destruct (Z.eqb_spec (owner f) p) as [Ho|Ho];
    destruct (Z.eqb_spec (owner t) p) as [Ho'|Ho'];
    destruct (Z.leb_spec 2 (armies f)) as [Ha|Ha];
    destruct (bool_decide_reflect (to ∈ ns)) as [Hin|Hin]; simpl;
    (split; [by auto|]);
    (split; [try done|]).
  all: try (intros (_ & _ & f' & t' & ns' & ? & ? & ? & ? & ? & ? & ?);
            simplify_eq; first [done | lia]).
  intros _. split; [by intros ->|]. split; [by intros ->|].
  exists f, t, ns. done.
Qed.

(** C10.  A territory never attacks itself: for a pointer [t] that is null
    or designates a territory and every player id [p],
    [validarAtaque(t, t, p)] returns 0. *)
Theorem validarAtaque_self w t p :
  t = NULL \/ is_Some (territory_at w t) ->
  validarAtaque t t p w = Ret 0 w.
Proof.
  intros [->|[x Hx]]; [done|].
  destruct (territory_at_Some _ _ _ Hx) as (l & -> & _).
  unfold validarAtaque. simpl.
  rewrite (bind_Ret _ _ _ _ _ (get_territory_ok _ _ _ Hx)).
  destruct (owner x =? p) eqn:Ho; simpl; [|done].
  rewrite (bind_Ret _ _ _ _ _ (get_territory_ok _ _ _ Hx)).
  by rewrite Ho.
Qed.

(** ** Construction: [criarTerritorio] and [adicionarVizinho] *)

Lemma malloc_ok b w :
  malloc true b w
  = Ret (Ptr (fresh (dom (heap w))))
        (mkWorld (<[fresh (dom (heap w)) := b]> (heap w)) (console w)).
Proof. done. Qed.

(** A fresh location is not allocated. *)
Lemma fresh_lookup (h : gmap loc block) : h !! fresh (dom h) = None.
Proof. apply not_elem_of_dom. apply is_fresh. Qed.

Lemma strcpy_ok w l s0 s :
  text_at w (Ptr l) = Some s0 ->
  strcpy (Ptr l) s w = Ret tt (mkWorld (<[l := BChars s]> (heap w)) (console w)).
Proof.
  intros H. unfold strcpy. rewrite (bind_Ret _ _ _ _ _ (get_chars_ok _ _ _ H)).
  unfold store. simpl in H. destruct (heap w !! l) as [[]|]; by simplify_eq.
Qed.

(** [criarTerritorio] when both allocations succeed. *)
Lemma criarTerritorio_run w nome o a :
  criarTerritorio true true nome o a w
  = Ret (Ptr (apos_criar w nome o a).1) (apos_criar w nome o a).2.
Proof.
  unfold criarTerritorio, apos_criar. destruct w as [h c]. simpl.
  rewrite (bind_Ret _ _ _ _ _ (malloc_ok _ _)). simpl.
  rewrite (bind_Ret _ _ _ _ _ (malloc_ok _ _)). simpl.
  pose proof (fresh_lookup h) as Hl.
  pose proof (fresh_lookup (<[fresh (dom h) := BTerritory (mkTerritory NULL 0 0 0 NULL)]> h)) as Hl2.
  set (l := fresh (dom h)) in *.
  set (l2 := fresh (dom (<[l := _]> h))) in *. clearbody l2 l.
  apply lookup_insert_None in Hl2 as [Hl2 Hne].
  do 2 step.
  erewrite bind_Ret by (eapply strcpy_ok; view). simpl.
  do 4 step. unfold ret. do 2 f_equal.
  apply map_eq. intros i.
  destruct (decide (i = l)) as [->|]; [by simplify_map_eq|].
  destruct (decide (i = l2)) as [->|]; by simplify_map_eq.
Qed.

Lemma free_ok w l b :
  heap w !! l = Some b ->
  free (Ptr l) w = Ret tt (mkWorld (delete l (heap w)) (console w)).
Proof. intros H. unfold free. by rewrite H. Qed.

Lemma realloc_ok w p bytes cs :
  bytes ≠ 0 ->
  (if is_null p then Some [] else cells_at w p) = Some cs ->
  realloc true p bytes w
  = Ret (Ptr (fresh (dom (sem_bloco (heap w) p))))
        (mkWorld (<[fresh (dom (sem_bloco (heap w) p))
                    := BPtrs (resize_cells cs (Z.to_nat (bytes / sizeof_ptr)))]>
                    (sem_bloco (heap w) p))
                 (console w)).
Proof.
  intros Hb Hcs. unfold realloc.
  rewrite (proj2 (Z.eqb_neq bytes 0) Hb).
  destruct p as [|a]; simpl in *.
  - by simplify_eq.
  - destruct (heap w !! a) as [[]|] eqn:Ha; try done. simplify_eq.
    erewrite bind_Ret by (apply get_cells_ok; simpl; by rewrite Ha).
    erewrite bind_Ret by (by eapply free_ok).
    by rewrite malloc_ok.
Qed.

Lemma mapM_id_Some {A} (l : list (option A)) k :
  mapM id l = Some k -> l = Some <$> k.
Proof.
  revert k. induction l as [|[x|] l IH]; intros k H; simpl in *.
  - by injection H as <-.
  - destruct (mapM id l) as [k'|]; [|done]. simpl in H. injection H as <-.
    simpl. f_equal. by apply IH.
  - done.
Qed.

(** Growing an array by one cell and writing that cell appends to the
    cells that were in use. *)
Lemma resize_write (cs : list (option ptr)) ns v :
  take (length ns) cs = Some <$> ns ->
  (length ns <= length cs)%nat ->
  <[length ns := Some v]> (resize_cells cs (S (length ns))) = Some <$> (ns ++ [v]).
Proof.
  intros Htake Hlen. unfold resize_cells. rewrite fmap_app. simpl.
  destruct (decide (length cs = length ns)) as [Heq|Hneq].
  - rewrite take_ge by lia. rewrite Heq. replace (S (length ns) - length ns)%nat with 1%nat by lia.
    simpl. rewrite take_ge in Htake by lia. rewrite Htake.
    rewrite insert_app_r_alt by (rewrite length_fmap; lia).
    rewrite length_fmap, Nat.sub_diag. done.
  - destruct (lookup_lt_is_Some_2 cs (length ns) ltac:(lia)) as [c Hc].
    rewrite (take_S_r _ _ _ Hc), Htake.
    replace (S (length ns) - length cs)%nat with 0%nat by lia. simpl.
    rewrite app_nil_r.
    rewrite insert_app_r_alt by (rewrite length_fmap; lia).
    rewrite length_fmap, Nat.sub_diag. done.
Qed.

Lemma neighbor_seq_Some w tr ns :
  neighbor_seq w tr = Some ns ->
  exists cs, (if is_null (neighbors tr) then Some [] else cells_at w (neighbors tr)) = Some cs /\
    (Z.to_nat (nNeighbors tr) <= length cs)%nat /\
    take (Z.to_nat (nNeighbors tr)) cs = Some <$> ns /\
    length ns = Z.to_nat (nNeighbors tr).
Proof.
  unfold neighbor_seq. intros H.
  destruct (if is_null (neighbors tr) then Some [] else cells_at w (neighbors tr)) as [cs|]; [|done].
  simpl in H. case_decide as Hn; [|done].
  exists cs. split; [done|]. split; [done|].
  pose proof (mapM_id_Some _ _ H) as Htake. split; [done|].
  apply (f_equal length) in Htake. rewrite length_fmap, length_take in Htake. lia.
Qed.

Lemma write_cell_ok w l cs i v :
  cells_at w (Ptr l) = Some cs ->
  0 <= i < Z.of_nat (length cs) ->
  write_cell (Ptr l) i v w
  = Ret tt (mkWorld (<[l := BPtrs (<[Z.to_nat i := Some v]> cs)]> (heap w)) (console w)).
Proof.
  intros Hcs Hi. unfold write_cell.
  rewrite (bind_Ret _ _ _ _ _ (get_cells_ok _ _ _ Hcs)).
  rewrite (proj2 (Z.leb_le 0 i)), (proj2 (Z.ltb_lt i _)) by lia. simpl.
  unfold store. simpl in Hcs. destruct (heap w !! l) as [[]|]; by simplify_eq.
Qed.

(** Linear arithmetic with the machine constants spelled out. *)
Ltac int_lia :=
  assert (min_int = -2147483648) by reflexivity;
  assert (max_int = 2147483647) by reflexivity;
  assert (size_modulus = 18446744073709551616) by reflexivity;
  assert (sizeof_ptr = 8) by reflexivity;
  lia.

(** [adicionarVizinho] when the reallocation succeeds. *)
Lemma adicionarVizinho_run w lt tr ns vizinho :
  territory_at w (Ptr lt) = Some tr ->
  neighbor_seq w tr = Some ns ->
  0 <= nNeighbors tr < max_int ->
  adicionarVizinho true (Ptr lt) vizinho w = Ret tt (apos_vizinho w lt tr ns vizinho).
Proof.
  intros Ht Hns Hn.
  destruct (neighbor_seq_Some _ _ _ Hns) as (cs & Hcs & Hlen & Htake & Hlns).
  destruct (territory_at_Some _ _ _ Ht) as (? & [= <-] & Hlt).
  unfold adicionarVizinho, apos_vizinho.
  rewrite (bind_Ret _ _ _ _ _ (get_territory_ok _ _ _ Ht)).
  erewrite bind_Ret by (apply int_val_ok; int_lia).
  assert ((sizeof_ptr * ((nNeighbors tr + 1) mod size_modulus)) mod size_modulus
          = sizeof_ptr * (nNeighbors tr + 1)) as Hbytes.
  { rewrite (Z.mod_small (nNeighbors tr + 1)) by int_lia.
    rewrite Z.mod_small by int_lia. done. }
  rewrite Hbytes.
  erewrite bind_Ret by (apply (realloc_ok _ _ _ cs); [unfold sizeof_ptr; lia | done]).
  assert (sizeof_ptr * (nNeighbors tr + 1) / sizeof_ptr = nNeighbors tr + 1) as ->.
  { unfold sizeof_ptr. rewrite Z.mul_comm. by apply Z.div_mul. }
  replace (Z.to_nat (nNeighbors tr + 1)) with (S (length ns)) by lia.
  assert (sem_bloco (heap w) (neighbors tr) !! lt = Some (BTerritory tr)) as Hlt1.
  { destruct (neighbors tr) as [|a]; simpl in *; [done|].
    rewrite lookup_delete_ne; [done|]. intros ->. by rewrite Hlt in Hcs. }
  pose proof (fresh_lookup (sem_bloco (heap w) (neighbors tr))) as Hfresh.
  set (h1 := sem_bloco (heap w) (neighbors tr)) in *.
  set (l' := fresh (dom h1)) in *. clearbody l' h1.
  assert (l' ≠ lt) by congruence.
  destruct tr as [tn to ta tk tv]. destruct w as [h c]. simpl in *.
  do 5 step.
  erewrite write_cell_ok; [| view |].
  2:{ unfold resize_cells. rewrite length_app, length_take, length_replicate. lia. }
  simpl. do 2 f_equal.
  replace (Z.to_nat tk) with (length ns) by lia.
  rewrite resize_write by (first [by rewrite Hlns | lia]).
  apply map_eq. intros i.
  destruct (decide (i = l')) as [->|]; [by simplify_map_eq|].
  destruct (decide (i = lt)) as [->|]; by simplify_map_eq.
Qed.

Lemma mapM_id_fmap_Some {A} (l : list A) : mapM id (Some <$> l) = Some l.
Proof.
  induction l as [|x l IH]; [done|].
  change (mapM id (Some <$> l) ≫= (λ k, mret (x :: k)) = Some (x :: l)).
  by rewrite IH.
Qed.

(** The array of a territory with a readable sequence is not a territory
    struct. *)
Lemma array_not_territory w l x tr ns :
  territory_at w (Ptr l) = Some x ->
  neighbor_seq w tr = Some ns ->
  Ptr l ≠ neighbors tr.
Proof.
  intros Hx Hns Heq.
  destruct (neighbor_seq_Some _ _ _ Hns) as (cs & Hcs & _).
  rewrite <- Heq in Hcs. simpl in *.
  destruct (heap w !! l) as [[]|]; done.
Qed.

Lemma sem_bloco_keeps (h : gmap loc block) p l :
  Ptr l ≠ p -> sem_bloco h p !! l = h !! l.
Proof.
  intros Hne. destruct p as [|a]; simpl; [done|].
  apply lookup_delete_ne. congruence.
Qed.

(** Every block other than the struct and its old array survives
    [adicionarVizinho]. *)
Lemma apos_vizinho_other w lt tr ns v l b :
  heap w !! l = Some b ->
  l ≠ lt -> Ptr l ≠ neighbors tr ->
  heap (apos_vizinho w lt tr ns v) !! l = Some b.
Proof.
  intros Hl Hne Harr. unfold apos_vizinho. simpl.
  pose proof (fresh_lookup (sem_bloco (heap w) (neighbors tr))) as Hfresh.
  assert (sem_bloco (heap w) (neighbors tr) !! l = Some b) as Hl1
    by (by rewrite sem_bloco_keeps).
  rewrite lookup_insert_ne by congruence.
  by rewrite lookup_insert_ne.
Qed.

Lemma apos_vizinho_self w lt tr ns v :
  territory_at w (Ptr lt) = Some tr ->
  neighbor_seq w tr = Some ns ->
  territory_at (apos_vizinho w lt tr ns v) (Ptr lt)
  = Some (set_nNeighbors (nNeighbors tr + 1)
            (set_neighbors
               (Ptr (fresh (dom (sem_bloco (heap w) (neighbors tr))))) tr)).
Proof.
  intros Ht Hns. unfold apos_vizinho. simpl.
  pose proof (fresh_lookup (sem_bloco (heap w) (neighbors tr))) as Hfresh.
  destruct (territory_at_Some _ _ _ Ht) as (? & [= <-] & Hlt).
  assert (sem_bloco (heap w) (neighbors tr) !! lt = Some (BTerritory tr)) as Hl1.
  { rewrite sem_bloco_keeps; [done|]. by eapply array_not_territory. }
  rewrite lookup_insert_ne by congruence.
  by rewrite lookup_insert_eq.
Qed.

Lemma apos_vizinho_array w lt tr ns v :
  cells_at (apos_vizinho w lt tr ns v)
    (Ptr (fresh (dom (sem_bloco (heap w) (neighbors tr)))))
  = Some (Some <$> (ns ++ [v])).
Proof. unfold apos_vizinho. simpl. by rewrite lookup_insert_eq. Qed.

(** C7.  For a territory [t] with a readable neighbour sequence [ns] (its
    count being a non-negative [int] below [INT_MAX]) and any pointer
    [vizinho], a call of [adicionarVizinho] whose reallocation succeeds
    returns with the count of [t] increased by exactly 1 and with the
    neighbour sequence [ns ++ [vizinho]]: the new last entry is [vizinho]
    and the earlier entries are unchanged.  Nothing is checked about
    [vizinho], so an entry already present is appended again.  Every other
    territory keeps its struct, and keeps its neighbour sequence unless it
    shares the array of [t]: no reverse edge is added. *)
Theorem adicionarVizinho_appends w t vizinho tr ns :
  territory_at w t = Some tr ->
  neighbor_seq w tr = Some ns ->
  0 <= nNeighbors tr < max_int ->
  exists w' tr',
    adicionarVizinho true t vizinho w = Ret tt w' /\
    territory_at w' t = Some tr' /\
    nNeighbors tr' = nNeighbors tr + 1 /\
    neighbor_seq w' tr' = Some (ns ++ [vizinho]) /\
    name tr' = name tr /\ owner tr' = owner tr /\ armies tr' = armies tr /\
    (forall p x,
       p ≠ t -> territory_at w p = Some x ->
       territory_at w' p = Some x /\
       (forall lx,
          neighbors x = NULL \/ neighbors x ≠ neighbors tr ->
          neighbor_seq w x = Some lx -> neighbor_seq w' x = Some lx)).
Proof.
  intros Ht Hns Hn.
  destruct (territory_at_Some _ _ _ Ht) as (lt & -> & Hlt).
  destruct (neighbor_seq_Some _ _ _ Hns) as (cs & Hcs & Hlen & Htake & Hlns).
  eexists (apos_vizinho w lt tr ns vizinho), _.
  split; [by apply adicionarVizinho_run|].
  split; [by apply apos_vizinho_self|].
  split; [done|].
  split.
  { unfold neighbor_seq. simpl neighbors. simpl is_null. cbv iota.
    rewrite apos_vizinho_array. simpl nNeighbors. simpl.
    assert (Z.to_nat (nNeighbors tr + 1) = length (Some <$> ns ++ [vizinho])) as ->.
    { rewrite length_fmap, length_app. simpl. lia. }
    rewrite decide_True by done.
    rewrite firstn_all. apply mapM_id_fmap_Some. }
  split; [done|]. split; [done|]. split; [done|].
  intros p x Hp Hx.
  destruct (territory_at_Some _ _ _ Hx) as (l & -> & Hl).
  assert (l ≠ lt) as Hne by congruence.
  assert (Ptr l ≠ neighbors tr) as Harr by (by eapply array_not_territory).
  split.
  { unfold territory_at.
    by rewrite (apos_vizinho_other _ _ _ _ _ _ _ Hl Hne Harr). }
  intros lx Hshare Hlx. unfold neighbor_seq in *.
  destruct (neighbors x) as [|b] eqn:Hb; [done|].
  destruct Hshare as [|Hshare]; [done|].
  simpl is_null in *. cbv iota in *.
  destruct (cells_at w (Ptr b)) as [csx|] eqn:Hbw; [|done].
  destruct (cells_at_Some _ _ _ Hbw) as (? & [= <-] & Hbw').
  assert (b ≠ lt) by (intros ->; by rewrite Hlt in Hbw').
  assert (cells_at (apos_vizinho w lt tr ns vizinho) (Ptr b) = Some csx) as ->; [|done].
  unfold cells_at. by rewrite (apos_vizinho_other _ _ _ _ _ _ _ Hbw').
Qed.

(** When the reallocation fails the process ends with [EXIT_FAILURE]. *)
Lemma adicionarVizinho_sem_memoria w t vizinho tr :
  territory_at w t = Some tr ->
  0 <= nNeighbors tr < max_int ->
  exists w', adicionarVizinho false t vizinho w = Exit EXIT_FAILURE w'.
Proof.
  intros Ht Hn.
  destruct (territory_at_Some _ _ _ Ht) as (lt & -> & Hlt).
  unfold adicionarVizinho.
  rewrite (bind_Ret _ _ _ _ _ (get_territory_ok _ _ _ Ht)).
  erewrite bind_Ret by (apply int_val_ok; int_lia).
  assert (realloc false (neighbors tr)
            ((sizeof_ptr * ((nNeighbors tr + 1) mod size_modulus)) mod size_modulus) w
          = Ret NULL w) as Hre.
  { unfold realloc.
    rewrite (Z.mod_small (nNeighbors tr + 1)) by int_lia.
    rewrite Z.mod_small by int_lia.
    rewrite (proj2 (Z.eqb_neq _ 0)) by int_lia. done. }
  rewrite (bind_Ret _ _ _ _ _ Hre).
  destruct w as [h c]. simpl in *. do 2 step. eauto.
Qed.

(** [criarTerritorio] when the struct cannot be allocated. *)
Lemma criarTerritorio_sem_struct ok_name nome o a w :
  exists w', criarTerritorio false ok_name nome o a w = Exit EXIT_FAILURE w'.
Proof. unfold criarTerritorio. eexists. reflexivity. Qed.

(** [criarTerritorio] when the name cannot be allocated. *)
Lemma criarTerritorio_sem_nome nome o a w :
  exists w', criarTerritorio true false nome o a w = Exit EXIT_FAILURE w'.
Proof.
  unfold criarTerritorio. destruct w as [h c].
  rewrite (bind_Ret _ _ _ _ _ (malloc_ok _ _)). simpl.
  erewrite bind_Ret by reflexivity. cbv beta.
  do 3 step.
  erewrite bind_Ret by (eapply free_ok; view).
  eexists. reflexivity.
Qed.

(** C8, as the code has it.  [criarTerritorio] either ends the process with
    [EXIT_FAILURE] (an allocation failed) or returns a territory at a fresh
    location whose owner and army count are the arguments, unchecked, whose
    name is a copy of the text and whose neighbour sequence is empty (count
    0, no array): [armies >= 0] holds after creation exactly when the
    argument is non-negative. *)
Theorem criarTerritorio_fields ok_t ok_name nome o a w :
  (ok_t && ok_name = false /\
   exists w', criarTerritorio ok_t ok_name nome o a w = Exit EXIT_FAILURE w')
  \/
  (ok_t && ok_name = true /\
   exists l w' tr,
     criarTerritorio ok_t ok_name nome o a w = Ret (Ptr l) w' /\
     heap w !! l = None /\
     territory_at w' (Ptr l) = Some tr /\
     owner tr = o /\ armies tr = a /\ (0 <= armies tr <-> 0 <= a) /\
     text_at w' (name tr) = Some nome /\
     nNeighbors tr = 0 /\ neighbors tr = NULL /\
     neighbor_seq w' tr = Some []).
Proof.
  destruct ok_t; [destruct ok_name|].
  - right. split; [done|].
    pose proof (fresh_lookup (heap w)) as Hl.
    pose proof (fresh_lookup
      (<[fresh (dom (heap w)) := BTerritory (mkTerritory NULL 0 0 0 NULL)]> (heap w)))
      as Hl2.
    apply lookup_insert_None in Hl2 as [Hl2 Hne].
    eexists _, _, _. split; [apply criarTerritorio_run|].
    split; [done|]. unfold apos_criar. simpl.
    rewrite lookup_insert_eq. split; [done|]. simpl.
    rewrite lookup_insert_ne by done. rewrite lookup_insert_eq. done.
  - left. split; [done|]. apply criarTerritorio_sem_nome.
  - left. split; [done|]. apply criarTerritorio_sem_struct.
Qed.

(** C8 as stated fails: the army count is stored without a check, so a
    negative argument yields a territory with [armies < 0]. *)
Lemma criarTerritorio_negative_armies :
  exists p w' tr,
    criarTerritorio true true "Litoral" 0 (-1) mundo_vazio = Ret p w' /\
    territory_at w' p = Some tr /\
    ~ (0 <= armies tr).
Proof.
  exists (Ptr 1%positive),
    (mkWorld (<[1%positive := BTerritory (mkTerritory (Ptr 2%positive) 0 (-1) 0 NULL)]>
                (<[2%positive := BChars "Litoral"]> ∅)) []),
    (mkTerritory (Ptr 2%positive) 0 (-1) 0 NULL).
  split; [by vm_compute|]. split; [by vm_compute|].
  simpl. intros H. by apply H.
Qed.

(** ** Teardown *)

(** C9.  [liberarMemoria] with an absent (null) registry releases nothing
    of that registry and signals no error, whatever the counts: with both
    registries absent the world is returned unchanged; with one absent the
    call does exactly what the block of the other registry does. *)
Theorem liberarMemoria_absent w territories nTerritories missions nMissions :
  liberarMemoria NULL nTerritories NULL nMissions w = Ret tt w /\
  liberar_registro_territorios NULL nTerritories w = Ret tt w /\
  liberar_registro_missoes NULL nMissions w = Ret tt w /\
  liberarMemoria NULL nTerritories missions nMissions w
    = liberar_registro_missoes missions nMissions w /\
  liberarMemoria territories nTerritories NULL nMissions w
    = liberar_registro_territorios territories nTerritories w.
Proof.
  split; [done|]. split; [done|]. split; [done|]. split; [done|].
  unfold liberarMemoria.
  change (liberar_registro_missoes NULL nMissions) with (@ret unit tt).
  apply bind_ret_r.
Qed.

(** ** The program's own scenario *)

(** [main] (lines 212-219): player 1 attacks Sertao from Amazonia; the
    attack is valid. *)
Example main_ataque_valido :
  validarAtaque p_amazonia p_sertao 1 mundo_exemplo = Ret 1 mundo_exemplo.
Proof. by vm_compute. Qed.

(** Litoral is not a neighbour of Amazonia: the attack is refused. *)
Example main_ataque_sem_fronteira :
  validarAtaque p_amazonia p_litoral 1 mundo_exemplo = Ret 0 mundo_exemplo.
Proof. by vm_compute. Qed.

(** Five armies against three, defender wins the roll (1 against 6): the
    attacker is left with four, the defender keeps three and its owner. *)
Example main_defensor_vence :
  exists w',
    resolverAtaque 0 5 p_amazonia p_sertao mundo_exemplo = Ret tt w' /\
    territory_at w' p_amazonia = Some (set_armies 4 amazonia) /\
    territory_at w' p_sertao = Some sertao /\
    printed mundo_exemplo w' [MsgRolagem 1 6; MsgPerde "Amazonia" 4].
Proof.
  eexists. split; [by vm_compute|]. split; [by vm_compute|].
  split; by vm_compute.
Qed.

(** A territory made to attack itself plays both roles: on a winning roll
    the one struct loses the army, so "attacker" and "defender" go from
    five to four together.  The theorems on combat therefore speak of two
    distinct territories, which is what a validated attack always has. *)
Example resolverAtaque_contra_si_mesmo :
  exists w',
    resolverAtaque 5 0 p_amazonia p_amazonia mundo_exemplo = Ret tt w' /\
    territory_at w' p_amazonia = Some (set_armies 4 amazonia).
Proof. eexists. split; by vm_compute. Qed.

(** [liberarMemoria] on the registry [main] built leaves no block behind. *)
Example main_liberarMemoria :
  liberarMemoria (Ptr 1%positive) 3 NULL 0 mundo_exemplo = Ret tt mundo_vazio.
Proof. by vm_compute. Qed.

(** ** Instances of the theorems on the example worlds *)

(** Facts about the example worlds are settled by evaluation. *)
Ltac calc := vm_compute; reflexivity.

Lemma validarAtaque_iff_witness :
  (territory_at mundo_exemplo p_amazonia = Some amazonia /\
   is_Some (neighbor_seq mundo_exemplo amazonia) /\
   is_Some (territory_at mundo_exemplo p_sertao)) /\
  validarAtaque p_amazonia p_sertao 1 mundo_exemplo = Ret 1 mundo_exemplo.
Proof.
  assert (territory_at mundo_exemplo p_amazonia = Some amazonia) as H1 by calc.
  assert (neighbor_seq mundo_exemplo amazonia = Some [p_sertao]) as H2 by calc.
  assert (territory_at mundo_exemplo p_sertao = Some sertao) as H3 by calc.
  split.
  { split; [exact H1|]. split; [exact (ex_intro _ _ H2) | exact (ex_intro _ _ H3)]. }
  destruct (validarAtaque_iff mundo_exemplo p_amazonia p_sertao 1)
    as (r & Hr & _ & Hiff).
  - right. exists amazonia. split; [exact H1 | exact (ex_intro _ _ H2)].
  - right. exact (ex_intro _ _ H3).
  - rewrite Hr. f_equal. apply Hiff.
    split; [discriminate|]. split; [discriminate|].
    exists amazonia, sertao, [p_sertao].
    split; [exact H1|]. split; [exact H3|]. split; [exact H2|].
    split; [reflexivity|]. split; [discriminate|]. split; [discriminate|].
    apply elem_of_cons. left. reflexivity.
Defined.

Lemma validarAtaque_self_witness :
  (p_amazonia = NULL \/ is_Some (territory_at mundo_exemplo p_amazonia)) /\
  validarAtaque p_amazonia p_amazonia 1 mundo_exemplo = Ret 0 mundo_exemplo.
Proof.
  assert (territory_at mundo_exemplo p_amazonia = Some amazonia) as H1 by calc.
  assert (p_amazonia = NULL \/ is_Some (territory_at mundo_exemplo p_amazonia)) as H
    by (right; exact (ex_intro _ _ H1)).
  split; [exact H|]. exact (validarAtaque_self mundo_exemplo p_amazonia 1 H).
Defined.

(** Amazonia attacks Sertao and wins the roll (6 against 3): Sertao goes
    from three armies to two and nothing else changes. *)
Lemma resolverAtaque_outcome_witness :
  (p_amazonia ≠ p_sertao /\
   territory_at mundo_exemplo p_amazonia = Some amazonia /\
   territory_at mundo_exemplo p_sertao = Some sertao /\
   text_at mundo_exemplo (name amazonia) = Some "Amazonia"%string /\
   text_at mundo_exemplo (name sertao) = Some "Sertao"%string /\
   min_int < armies amazonia <= max_int /\
   min_int < armies sertao <= max_int /\
   0 <= 5 /\ 0 <= 2) /\
  exists w',
    resolverAtaque 5 2 p_amazonia p_sertao mundo_exemplo = Ret tt w' /\
    territory_at w' p_amazonia = Some amazonia /\
    territory_at w' p_sertao = Some (set_armies 2 sertao).
Proof.
  assert (p_amazonia ≠ p_sertao) as H0 by discriminate.
  assert (territory_at mundo_exemplo p_amazonia = Some amazonia) as H1 by calc.
  assert (territory_at mundo_exemplo p_sertao = Some sertao) as H2 by calc.
  assert (text_at mundo_exemplo (name amazonia) = Some "Amazonia"%string) as H3 by calc.
  assert (text_at mundo_exemplo (name sertao) = Some "Sertao"%string) as H4 by calc.
  assert (min_int < armies amazonia <= max_int) as H5 by (split; [reflexivity | discriminate]).
  assert (min_int < armies sertao <= max_int) as H6 by (split; [reflexivity | discriminate]).
  assert (0 <= 5) as H7 by discriminate.
  assert (0 <= 2) as H8 by discriminate.
  split; [repeat (split; [assumption|]); assumption|].
  destruct (resolverAtaque_outcome mundo_exemplo p_amazonia p_sertao
              amazonia sertao "Amazonia" "Sertao" 5 2 H0 H1 H2 H3 H4 H5 H6 H7 H8)
    as (w' & f' & t' & Hrun & Hf & Ht & _ & _ & _ & Hwin & _).
  destruct Hwin as [-> ->]; [reflexivity | reflexivity |].
  exists w'. split; [exact Hrun|]. split; [exact Hf | exact Ht].
Defined.

(** Amazonia attacks Sertao and loses the roll (1 against 6): Amazonia goes
    from five armies to four, Sertao is as before. *)
Lemma resolverAtaque_exchange_witness :
  (p_amazonia ≠ p_sertao /\
   territory_at mundo_exemplo p_amazonia = Some amazonia /\
   territory_at mundo_exemplo p_sertao = Some sertao /\
   text_at mundo_exemplo (name amazonia) = Some "Amazonia"%string /\
   text_at mundo_exemplo (name sertao) = Some "Sertao"%string /\
   min_int < armies amazonia <= max_int /\
   min_int < armies sertao <= max_int) /\
  exists w' f' t',
    resolverAtaque 0 5 p_amazonia p_sertao mundo_exemplo = Ret tt w' /\
    territory_at w' p_amazonia = Some f' /\
    territory_at w' p_sertao = Some t'.
Proof.
  assert (p_amazonia ≠ p_sertao) as H0 by discriminate.
  assert (territory_at mundo_exemplo p_amazonia = Some amazonia) as H1 by calc.
  assert (territory_at mundo_exemplo p_sertao = Some sertao) as H2 by calc.
  assert (text_at mundo_exemplo (name amazonia) = Some "Amazonia"%string) as H3 by calc.
  assert (text_at mundo_exemplo (name sertao) = Some "Sertao"%string) as H4 by calc.
  assert (min_int < armies amazonia <= max_int) as H5 by (split; [reflexivity | discriminate]).
  assert (min_int < armies sertao <= max_int) as H6 by (split; [reflexivity | discriminate]).
  split; [repeat (split; [assumption|]); assumption|].
  destruct (resolverAtaque_exchange mundo_exemplo p_amazonia p_sertao
              amazonia sertao "Amazonia" "Sertao" 0 5 H0 H1 H2 H3 H4 H5 H6)
    as (w' & f' & t' & ms & Hrun & Hf & Ht & _).
  exists w', f', t'. split; [exact Hrun|]. split; [exact Hf | exact Ht].
Defined.

(** The last defender falls: Amazonia attacks a Litoral held by one army
    and wins the roll (6 against 1); Litoral changes hands with one army. *)
Lemma resolverAtaque_conquest_witness :
  (p_atacante ≠ p_defensor /\
   territory_at mundo_cerco p_atacante = Some atacante /\
   territory_at mundo_cerco p_defensor = Some defensor /\
   text_at mundo_cerco (name atacante) = Some "Amazonia"%string /\
   text_at mundo_cerco (name defensor) = Some "Litoral"%string /\
   min_int < armies atacante <= max_int /\
   min_int < armies defensor <= max_int) /\
  exists w' f' t',
    resolverAtaque 5 0 p_atacante p_defensor mundo_cerco = Ret tt w' /\
    territory_at w' p_atacante = Some f' /\
    territory_at w' p_defensor = Some t' /\
    owner t' = 1 /\ armies t' = 1 /\ armies f' = 4.
Proof.
  assert (p_atacante ≠ p_defensor) as H0 by discriminate.
  assert (territory_at mundo_cerco p_atacante = Some atacante) as H1 by calc.
  assert (territory_at mundo_cerco p_defensor = Some defensor) as H2 by calc.
  assert (text_at mundo_cerco (name atacante) = Some "Amazonia"%string) as H3 by calc.
  assert (text_at mundo_cerco (name defensor) = Some "Litoral"%string) as H4 by calc.
  assert (min_int < armies atacante <= max_int) as H5 by (split; [reflexivity | discriminate]).
  assert (min_int < armies defensor <= max_int) as H6 by (split; [reflexivity | discriminate]).
  split; [repeat (split; [assumption|]); assumption|].
  destruct (resolverAtaque_conquest mundo_cerco p_atacante p_defensor
              atacante defensor "Amazonia" "Litoral" 5 0 H0 H1 H2 H3 H4 H5 H6)
    as (w' & f' & t' & ms & Hrun & Hf & Ht & _ & _ & _ & _ & Hone).
  destruct Hone as (Ho & Ha & Hb); [reflexivity | reflexivity |].
  exists w', f', t'. split; [exact Hrun|]. split; [exact Hf|]. split; [exact Ht|].
  split; [exact Ho|]. split; [exact Ha | exact Hb].
Defined.

(** The attack [main] validates keeps every count non-negative. *)
Lemma resolverAtaque_armies_nonneg_witness :
  (territory_at mundo_exemplo p_amazonia = Some amazonia /\
   territory_at mundo_exemplo p_sertao = Some sertao /\
   text_at mundo_exemplo (name amazonia) = Some "Amazonia"%string /\
   text_at mundo_exemplo (name sertao) = Some "Sertao"%string /\
   0 <= armies amazonia <= max_int /\
   0 <= armies sertao <= max_int /\
   validarAtaque p_amazonia p_sertao (owner amazonia) mundo_exemplo
     = Ret 1 mundo_exemplo) /\
  exists w' f' t',
    resolverAtaque 3 3 p_amazonia p_sertao mundo_exemplo = Ret tt w' /\
    territory_at w' p_amazonia = Some f' /\
    territory_at w' p_sertao = Some t' /\
    0 <= armies f' /\ 0 <= armies t'.
Proof.
  assert (territory_at mundo_exemplo p_amazonia = Some amazonia) as H1 by calc.
  assert (territory_at mundo_exemplo p_sertao = Some sertao) as H2 by calc.
  assert (text_at mundo_exemplo (name amazonia) = Some "Amazonia"%string) as H3 by calc.
  assert (text_at mundo_exemplo (name sertao) = Some "Sertao"%string) as H4 by calc.
  assert (0 <= armies amazonia <= max_int) as H5 by (split; discriminate).
  assert (0 <= armies sertao <= max_int) as H6 by (split; discriminate).
  assert (validarAtaque p_amazonia p_sertao (owner amazonia) mundo_exemplo
          = Ret 1 mundo_exemplo) as H7 by calc.
  split; [repeat (split; [assumption|]); assumption|].
  destruct (resolverAtaque_armies_nonneg mundo_exemplo mundo_exemplo
              p_amazonia p_sertao amazonia sertao "Amazonia" "Sertao" 3 3
              H1 H2 H3 H4 H5 H6 H7)
    as (w' & f' & t' & ms & Hrun & Hf & Ht & Hfa & Hta & _).
  exists w', f', t'. split; [exact Hrun|]. split; [exact Hf|]. split; [exact Ht|].
  split; [exact Hfa | exact Hta].
Defined.

(** Sertao attacks Litoral: Amazonia, a third territory, is untouched. *)
Lemma resolverAtaque_frame_witness :
  (p_sertao ≠ p_litoral /\
   territory_at mundo_exemplo p_sertao = Some sertao /\
   territory_at mundo_exemplo p_litoral = Some litoral /\
   text_at mundo_exemplo (name sertao) = Some "Sertao"%string /\
   text_at mundo_exemplo (name litoral) = Some "Litoral"%string /\
   min_int < armies sertao <= max_int /\
   min_int < armies litoral <= max_int) /\
  exists w',
    resolverAtaque 4 1 p_sertao p_litoral mundo_exemplo = Ret tt w' /\
    territory_at w' p_amazonia = Some amazonia.
Proof.
  assert (p_sertao ≠ p_litoral) as H0 by discriminate.
  assert (territory_at mundo_exemplo p_sertao = Some sertao) as H1 by calc.
  assert (territory_at mundo_exemplo p_litoral = Some litoral) as H2 by calc.
  assert (text_at mundo_exemplo (name sertao) = Some "Sertao"%string) as H3 by calc.
  assert (text_at mundo_exemplo (name litoral) = Some "Litoral"%string) as H4 by calc.
  assert (min_int < armies sertao <= max_int) as H5 by (split; [reflexivity | discriminate]).
  assert (min_int < armies litoral <= max_int) as H6 by (split; [reflexivity | discriminate]).
  assert (territory_at mundo_exemplo p_amazonia = Some amazonia) as H7 by calc.
  split; [repeat (split; [assumption|]); assumption|].
  destruct (resolverAtaque_frame mundo_exemplo p_sertao p_litoral
              sertao litoral "Sertao" "Litoral" 4 1 H0 H1 H2 H3 H4 H5 H6)
    as (w' & f' & t' & Hrun & _ & _ & _ & _ & _ & _ & _ & _ & _ & _ & _ & _ & _ & _ & Hother).
  exists w'. split; [exact Hrun|].
  rewrite <- H7. unfold p_amazonia, territory_at.
  rewrite (Hother 2%positive); [reflexivity | discriminate | discriminate].
Defined.

(** Litoral gets Amazonia as a second neighbour. *)
Lemma adicionarVizinho_appends_witness :
  (territory_at mundo_exemplo p_litoral = Some litoral /\
   neighbor_seq mundo_exemplo litoral = Some [p_sertao] /\
   0 <= nNeighbors litoral < max_int) /\
  exists w' tr',
    adicionarVizinho true p_litoral p_amazonia mundo_exemplo = Ret tt w' /\
    territory_at w' p_litoral = Some tr' /\
    nNeighbors tr' = 2 /\
    neighbor_seq w' tr' = Some [p_sertao; p_amazonia].
Proof.
  assert (territory_at mundo_exemplo p_litoral = Some litoral) as H1 by calc.
  assert (neighbor_seq mundo_exemplo litoral = Some [p_sertao]) as H2 by calc.
  assert (0 <= nNeighbors litoral < max_int) as H3 by (split; [discriminate | reflexivity]).
  split; [repeat (split; [assumption|]); assumption|].
  destruct (adicionarVizinho_appends mundo_exemplo p_litoral p_amazonia
              litoral [p_sertao] H1 H2 H3)
    as (w' & tr' & Hrun & Ht & Hn & Hseq & _).
  exists w', tr'. split; [exact Hrun|]. split; [exact Ht|].
  split; [exact Hn | exact Hseq].
Defined.

(** * Further properties of the code *)

(** ** Combat, beyond the claims *)

(** X1.  A combat against a territory that holds at least one army removes
    exactly one army from the board: the counts of the two territories
    add up to one less than before, whoever wins and whether or not the
    territory changes hands (lines 111-127). *)
Theorem resolverAtaque_one_army_lost w from to f t nf nt r1 r2 :
  from ≠ to ->
  territory_at w from = Some f ->
  territory_at w to = Some t ->
  text_at w (name f) = Some nf ->
  text_at w (name t) = Some nt ->
  min_int < armies f <= max_int ->
  1 <= armies t <= max_int ->
  exists w' f' t',
    resolverAtaque r1 r2 from to w = Ret tt w' /\
    territory_at w' from = Some f' /\
    territory_at w' to = Some t' /\
    armies f' + armies t' = armies f + armies t - 1.
Proof.
  intros Hne Hfrom Hto Hnf Hnt Hfa Hta.
  destruct (territory_at_Some _ _ _ Hfrom) as (lf & -> & _).
  destruct (territory_at_Some _ _ _ Hto) as (lt & -> & _).
  assert (lf ≠ lt) as Hl by congruence.
  assert (min_int < 0) as Hmin by done.
  exists (apos_combate w lf lt f t nf nt r1 r2),
    (from_apos f t r1 r2), (to_apos f t r1 r2).
  split; [apply resolverAtaque_run; try done; lia|].
  split; [by apply apos_combate_from|].
  split; [by apply apos_combate_to|].
  unfold from_apos, to_apos.
  destruct (dado r1 >? dado r2); [|simpl; lia].
  destruct (Z.leb_spec (armies t - 1) 0); simpl; lia.
Qed.

(** X2.  An attack on a territory without armies ([armies <= 0], which
    [criarTerritorio] allows) that wins the roll costs nothing: the
    territory is conquered and garrisoned with the one army the attacker
    gives up, so afterwards the two counts add up to the attacker's count
    before (lines 113-119). *)
Theorem resolverAtaque_empty_target w from to f t nf nt r1 r2 :
  from ≠ to ->
  territory_at w from = Some f ->
  territory_at w to = Some t ->
  text_at w (name f) = Some nf ->
  text_at w (name t) = Some nt ->
  min_int < armies f <= max_int ->
  min_int < armies t <= 0 ->
  dado r1 > dado r2 ->
  exists w' f' t',
    resolverAtaque r1 r2 from to w = Ret tt w' /\
    territory_at w' from = Some f' /\
    territory_at w' to = Some t' /\
    owner t' = owner f /\ armies t' = 1 /\
    armies f' + armies t' = armies f.
Proof.
  intros Hne Hfrom Hto Hnf Hnt Hfa Hta Hwin.
  destruct (territory_at_Some _ _ _ Hfrom) as (lf & -> & _).
  destruct (territory_at_Some _ _ _ Hto) as (lt & -> & _).
  assert (lf ≠ lt) as Hl by congruence.
  assert (0 <= max_int) as Hmax by done.
  exists (apos_combate w lf lt f t nf nt r1 r2),
    (from_apos f t r1 r2), (to_apos f t r1 r2).
  split; [apply resolverAtaque_run; try done; lia|].
  split; [by apply apos_combate_from|].
  split; [by apply apos_combate_to|].
  unfold from_apos, to_apos.
  destruct (Z.gtb_spec (dado r1) (dado r2)); [|lia].
  destruct (Z.leb_spec (armies t - 1) 0); simpl; [|lia].
  split; [done|]. split; [done|]. lia.
Qed.

(** X3.  The garrison rule behind the test [from->armies < 2] (lines
    77-94): after an attack that [validarAtaque] accepted, on a target
    holding at least one army, both territories still hold at least one
    army; and if every territory of the world held at least one army
    before the combat, every territory does after it. *)
Theorem resolverAtaque_keeps_garrison w w0 from to f t nf nt r1 r2 p :
  territory_at w from = Some f ->
  territory_at w to = Some t ->
  text_at w (name f) = Some nf ->
  text_at w (name t) = Some nt ->
  armies f <= max_int ->
  1 <= armies t <= max_int ->
  validarAtaque from to p w = Ret 1 w0 ->
  exists w' f' t',
    resolverAtaque r1 r2 from to w = Ret tt w' /\
    territory_at w' from = Some f' /\
    territory_at w' to = Some t' /\
    1 <= armies f' /\ 1 <= armies t' /\
    ((forall q x, territory_at w q = Some x -> 1 <= armies x) ->
     (forall q x, territory_at w' q = Some x -> 1 <= armies x)).
Proof.
  intros Hfrom Hto Hnf Hnt Hfa Hta Hval.
  destruct (validarAtaque_true_inv _ _ _ _ _ _ _ Hfrom Hto Hval)
    as (Hp & Howner & Htwo).
  destruct (territory_at_Some _ _ _ Hfrom) as (lf & -> & _).
  destruct (territory_at_Some _ _ _ Hto) as (lt & -> & _).
  assert (lf ≠ lt) as Hl by (intros ->; congruence).
  assert (min_int < 0) as Hmin by done.
  exists (apos_combate w lf lt f t nf nt r1 r2),
    (from_apos f t r1 r2), (to_apos f t r1 r2).
  split; [apply resolverAtaque_run; try done; lia|].
  split; [by apply apos_combate_from|].
  split; [by apply apos_combate_to|].
  assert (1 <= armies (from_apos f t r1 r2)) as Hf'.
  { unfold from_apos. repeat case_match; simpl; lia. }
  assert (1 <= armies (to_apos f t r1 r2)) as Ht'.
  { unfold to_apos. destruct (dado r1 >? dado r2); [|lia].
    destruct (Z.leb_spec (armies t - 1) 0); simpl; lia. }
  split; [done|]. split; [done|].
  intros Hw [|l] x Hx; [done|].
  destruct (decide (l = lf)) as [->|Hlf].
  { rewrite (apos_combate_from _ _ _ _ _ _ _ _ _ Hl Hfrom) in Hx.
    by simplify_eq. }
  destruct (decide (l = lt)) as [->|Hlt].
  { rewrite (apos_combate_to _ _ _ _ _ _ _ _ _ Hl Hto) in Hx.
    by simplify_eq. }
  apply (Hw (Ptr l)). simpl in *.
  by rewrite apos_combate_other in Hx.
Qed.

(** X4.  Attacking again.  After the combat of an accepted attack,
    [validarAtaque] with the same arguments accepts again exactly when the
    territory was not conquered and the attacker still has two armies:
    that is, when the attacker won without conquering, or lost the roll
    having started with at least three armies.  In particular a territory
    just conquered cannot be attacked by its new owner (lines 87-94 after
    lines 111-127). *)
Theorem resolverAtaque_then_validarAtaque w from to f t nf nt ns r1 r2 p :
  territory_at w from = Some f ->
  territory_at w to = Some t ->
  text_at w (name f) = Some nf ->
  text_at w (name t) = Some nt ->
  neighbor_seq w f = Some ns ->
  armies f <= max_int ->
  min_int < armies t <= max_int ->
  validarAtaque from to p w = Ret 1 w ->
  exists w' r,
    resolverAtaque r1 r2 from to w = Ret tt w' /\
    validarAtaque from to p w' = Ret r w' /\
    (r = 0 \/ r = 1) /\
    (r = 1 <->
       (dado r1 > dado r2 /\ 0 < armies t - 1) \/
       (dado r1 <= dado r2 /\ 3 <= armies f)).
Proof.
  intros Hfrom Hto Hnf Hnt Hns Hfa Hta Hval.
  destruct (validarAtaque_true_inv _ _ _ _ _ _ _ Hfrom Hto Hval)
    as (Hp & Howner & Htwo).
  rewrite (validarAtaque_run _ _ _ _ _ _ _ Hfrom Hto Hns) in Hval.
  assert (to ∈ ns) as Hin.
  { destruct (bool_decide_reflect (to ∈ ns)); [done|].
    rewrite andb_false_r in Hval. done. }
  clear Hval.
  destruct (territory_at_Some _ _ _ Hfrom) as (lf & -> & _).
  destruct (territory_at_Some _ _ _ Hto) as (lt & -> & _).
  assert (lf ≠ lt) as Hl by (intros ->; congruence).
  assert (min_int < 0) as Hmin by done.
  pose proof (apos_combate_from w lf lt f t nf nt r1 r2 Hl Hfrom) as Hf'.
  pose proof (apos_combate_to w lf lt f t nf nt r1 r2 Hl Hto) as Ht'.
  assert (neighbor_seq (apos_combate w lf lt f t nf nt r1 r2) (from_apos f t r1 r2)
          = Some ns) as Hns'.
  { rewrite <- Hns. apply neighbor_seq_ext.
    - intros q. by apply apos_combate_cells.
    - unfold from_apos. repeat case_match; done.
    - unfold from_apos. repeat case_match; done. }
  eexists (apos_combate w lf lt f t nf nt r1 r2), _.
  split; [apply resolverAtaque_run; try done; lia|].
  split; [apply (validarAtaque_run _ _ _ _ _ _ _ Hf' Ht' Hns')|].
  rewrite (bool_decide_eq_true_2 _ Hin), andb_true_r.
  unfold from_apos, to_apos.
  destruct (Z.gtb_spec (dado r1) (dado r2));
    [destruct (Z.leb_spec (armies t - 1) 0)|]; simpl;
    repeat match goal with
           | |- context [?a =? ?b] => destruct (Z.eqb_spec a b)
           | |- context [?a <=? ?b] => destruct (Z.leb_spec a b)
           end; simpl;
    (split; [by auto|]); split; intros; try done; try lia;
    intuition (first [congruence | lia]).
Qed.

(** ** Creation, beyond the claims *)

(** What a pointer designates is kept when memory only grows. *)
Lemma territory_at_mono w w' p x :
  heap w ⊆ heap w' -> territory_at w p = Some x -> territory_at w' p = Some x.
Proof.
  intros Hsub Hx. destruct (territory_at_Some _ _ _ Hx) as (l & -> & Hl).
  simpl. by rewrite (lookup_weaken _ _ _ _ Hl Hsub).
Qed.

Lemma text_at_mono w w' p s :
  heap w ⊆ heap w' -> text_at w p = Some s -> text_at w' p = Some s.
Proof.
  intros Hsub Hx. destruct (text_at_Some _ _ _ Hx) as (l & -> & Hl).
  simpl. by rewrite (lookup_weaken _ _ _ _ Hl Hsub).
Qed.

Lemma cells_at_mono w w' p cs :
  heap w ⊆ heap w' -> cells_at w p = Some cs -> cells_at w' p = Some cs.
Proof.
  intros Hsub Hx. destruct (cells_at_Some _ _ _ Hx) as (l & -> & Hl).
  simpl. by rewrite (lookup_weaken _ _ _ _ Hl Hsub).
Qed.

Lemma neighbor_seq_mono w w' x ns :
  heap w ⊆ heap w' -> neighbor_seq w x = Some ns -> neighbor_seq w' x = Some ns.
Proof.
  intros Hsub. unfold neighbor_seq.
  destruct (is_null (neighbors x)); [done|].
  destruct (cells_at w (neighbors x)) as [cs|] eqn:Hcs; [|done].
  by rewrite (cells_at_mono _ _ _ _ Hsub Hcs).
Qed.

Lemma apos_criar_grows w nome o a :
  heap w ⊆ heap (apos_criar w nome o a).2.
Proof.
  unfold apos_criar. simpl.
  pose proof (fresh_lookup (heap w)) as Hl.
  pose proof (fresh_lookup
    (<[fresh (dom (heap w)) := BTerritory (mkTerritory NULL 0 0 0 NULL)]> (heap w)))
    as Hl2.
  apply lookup_insert_None in Hl2 as [Hl2 Hne].
  etrans; [apply (insert_subseteq _ _ (BChars nome) Hl2)|].
  apply insert_subseteq. by rewrite lookup_insert_ne.
Qed.

(** X5.  A successful [criarTerritorio] disturbs nothing that exists: it
    adds exactly two blocks, the struct and its name, at locations that
    were free; every block allocated before is unchanged, so every
    territory keeps its struct, its name and its neighbour sequence, and no
    existing territory is at the returned address; nothing is printed
    (lines 29-47). *)
Theorem criarTerritorio_preserves w nome o a :
  exists l ln w',
    criarTerritorio true true nome o a w = Ret (Ptr l) w' /\
    l ≠ ln /\ heap w !! l = None /\ heap w !! ln = None /\
    dom (heap w') = {[l; ln]} ∪ dom (heap w) /\
    (forall k b, heap w !! k = Some b -> heap w' !! k = Some b) /\
    console w' = console w /\
    (forall q x,
       territory_at w q = Some x ->
       q ≠ Ptr l /\ territory_at w' q = Some x /\
       (forall s, text_at w (name x) = Some s -> text_at w' (name x) = Some s) /\
       (forall ns, neighbor_seq w x = Some ns -> neighbor_seq w' x = Some ns)).
Proof.
  pose proof (fresh_lookup (heap w)) as Hl.
  pose proof (fresh_lookup
    (<[fresh (dom (heap w)) := BTerritory (mkTerritory NULL 0 0 0 NULL)]> (heap w)))
    as Hl2.
  apply lookup_insert_None in Hl2 as [Hl2 Hne].
  pose proof (apos_criar_grows w nome o a) as Hsub.
  eexists _, _, _. split; [apply criarTerritorio_run|].
  split; [exact Hne|]. split; [exact Hl|]. split; [exact Hl2|].
  split.
  { unfold apos_criar. simpl. by rewrite !dom_insert_L, (assoc_L (∪)). }
  split; [intros k b Hk; by apply (lookup_weaken _ _ _ _ Hk Hsub)|].
  split; [done|].
  intros q x Hx. split.
  { intros ->. simpl in Hx. by rewrite Hl in Hx. }
  split; [by eapply territory_at_mono|].
  split; [intros s; by apply text_at_mono | intros ns; by apply neighbor_seq_mono].
Qed.

(** X6.  When an allocation fails [criarTerritorio] ends the process with
    [EXIT_FAILURE] after one [perror] line and leaves no block behind: if
    the struct cannot be allocated memory is untouched, and if the name
    cannot be allocated the struct is released before exiting (lines
    31-40). *)
Theorem criarTerritorio_failure w ok_name nome o a :
  criarTerritorio false ok_name nome o a w
    = Exit EXIT_FAILURE
        (mkWorld (heap w) (console w ++ [MsgPerror "malloc Territory"])) /\
  criarTerritorio true false nome o a w
    = Exit EXIT_FAILURE
        (mkWorld (heap w) (console w ++ [MsgPerror "malloc name"])).
Proof.
  split; [done|].
  unfold criarTerritorio. destruct w as [h c].
  pose proof (fresh_lookup h) as Hl.
  rewrite (bind_Ret _ _ _ _ _ (malloc_ok _ _)). simpl.
  erewrite bind_Ret by reflexivity. cbv beta.
  do 3 step.
  erewrite bind_Ret by (eapply free_ok; view). simpl.
  unfold exit. do 2 f_equal.
  rewrite delete_insert_eq, delete_insert_eq. by apply delete_id.
Qed.

Lemma mission_at_Some w p m :
  mission_at w p = Some m ->
  exists l, p = Ptr l /\ heap w !! l = Some (BMission m).
Proof.
  destruct p as [|l]; simpl; [done|].
  destruct (heap w !! l) as [[]|] eqn:E; intros; simplify_eq; eauto.
Qed.

Lemma get_mission_ok w p m :
  mission_at w p = Some m -> get_mission p w = Ret m w.
Proof.
  intros H. destruct (mission_at_Some _ _ _ H) as (l & -> & Hl).
  unfold get_mission, bind, load. by rewrite Hl.
Qed.

Lemma set_mfield_ok w l m f :
  mission_at w (Ptr l) = Some m ->
  set_mfield (Ptr l) f w
  = Ret tt (mkWorld (<[l := BMission (f m)]> (heap w)) (console w)).
Proof.
  intros H. unfold set_mfield.
  rewrite (bind_Ret _ _ _ _ _ (get_mission_ok _ _ _ H)).
  destruct (mission_at_Some _ _ _ H) as (? & [= <-] & Hl).
  unfold store. by rewrite Hl.
Qed.

(** X7.  [criarMissao] (lines 60-75).  When both allocations succeed it
    returns a mission at a free location whose description is a copy of
    the text and whose [targetOwner] is the argument, stored without any
    check against the players or territories that exist; every block
    allocated before is unchanged and nothing is printed.  When an
    allocation fails it ends the process with [EXIT_FAILURE] after one
    [perror] line, with memory as it was before the call. *)
Theorem criarMissao_fields w ok_desc desc o :
  (exists l ld w',
     criarMissao true true desc o w = Ret (Ptr l) w' /\
     l ≠ ld /\ heap w !! l = None /\ heap w !! ld = None /\
     mission_at w' (Ptr l) = Some (mkMission (Ptr ld) o) /\
     text_at w' (Ptr ld) = Some desc /\
     dom (heap w') = {[l; ld]} ∪ dom (heap w) /\
     (forall k b, heap w !! k = Some b -> heap w' !! k = Some b) /\
     console w' = console w) /\
  criarMissao true false desc o w
    = Exit EXIT_FAILURE
        (mkWorld (heap w) (console w ++ [MsgPerror "malloc desc"])) /\
  criarMissao false ok_desc desc o w
    = Exit EXIT_FAILURE
        (mkWorld (heap w) (console w ++ [MsgPerror "malloc Mission"])).
Proof.
  destruct w as [h c]. simpl.
  pose proof (fresh_lookup h) as Hl.
  pose proof (fresh_lookup
    (<[fresh (dom h) := BMission (mkMission NULL 0)]> h)) as Hl2.
  apply lookup_insert_None in Hl2 as [Hl2 Hne].
  set (l := fresh (dom h)) in *.
  split; [|split; [|done]].
  - exists l, (fresh (dom (<[l := BMission (mkMission NULL 0)]> h))).
    set (ld := fresh (dom (<[l := _]> h))) in *.
    eexists. unfold criarMissao.
    rewrite (bind_Ret _ _ _ _ _ (malloc_ok _ _)). simpl.
    rewrite (bind_Ret _ _ _ _ _ (malloc_ok _ _)). simpl.
    fold l. fold ld. clearbody ld l.
    erewrite bind_Ret by (apply set_mfield_ok; view). simpl.
    erewrite bind_Ret by (apply get_mission_ok; view). simpl.
    erewrite bind_Ret by (eapply strcpy_ok; view). simpl.
    erewrite bind_Ret by (apply set_mfield_ok; view). simpl.
    split; [reflexivity|]. simpl.
    split; [done|]. split; [done|]. split; [done|].
    split; [by simplify_map_eq|]. split; [by simplify_map_eq|].
    split.
    { rewrite !dom_insert_L.
      apply set_eq. intros k. rewrite !elem_of_union, !elem_of_singleton. tauto. }
    split; [|done]. intros k b Hk.
    assert (k ≠ l) by congruence. assert (k ≠ ld) by congruence.
    by simplify_map_eq.
  - unfold criarMissao.
    rewrite (bind_Ret _ _ _ _ _ (malloc_ok _ _)). simpl. fold l. clearbody l.
    erewrite bind_Ret by reflexivity. cbv beta.
    erewrite bind_Ret by (apply set_mfield_ok; view). simpl.
    erewrite bind_Ret by (apply get_mission_ok; view). simpl.
    erewrite bind_Ret by reflexivity. cbv beta.
    erewrite bind_Ret by (eapply free_ok; view). simpl.
    unfold exit. do 2 f_equal.
    rewrite delete_insert_eq, delete_insert_eq. by apply delete_id.
Qed.

(** ** Adjacency, beyond the claims *)

(** The neighbour sequence after [adicionarVizinho]. *)
Lemma apos_vizinho_seq w lt tr ns v :
  neighbor_seq w tr = Some ns ->
  0 <= nNeighbors tr ->
  neighbor_seq (apos_vizinho w lt tr ns v)
    (set_nNeighbors (nNeighbors tr + 1)
       (set_neighbors (Ptr (fresh (dom (sem_bloco (heap w) (neighbors tr))))) tr))
  = Some (ns ++ [v]).
Proof.
  intros Hns Hn.
  destruct (neighbor_seq_Some _ _ _ Hns) as (cs & Hcs & Hlen & Htake & Hlns).
  unfold neighbor_seq. simpl neighbors. simpl is_null. cbv iota.
  rewrite apos_vizinho_array. simpl nNeighbors. simpl.
  assert (Z.to_nat (nNeighbors tr + 1) = length (Some <$> ns ++ [v])) as ->.
  { rewrite length_fmap, length_app. simpl. lia. }
  rewrite decide_True by done.
  rewrite firstn_all. apply mapM_id_fmap_Some.
Qed.

(** X8.  When the reallocation fails [adicionarVizinho] ends the process
    with [EXIT_FAILURE] after one [perror] line.  By then the result of
    [realloc] has been stored: the territory's array pointer is [NULL]
    while its count is unchanged, and the old array block, like every
    other block, is still allocated with its content (lines 51-55). *)
Theorem adicionarVizinho_failure w t vizinho tr :
  territory_at w t = Some tr ->
  0 <= nNeighbors tr < max_int ->
  exists w',
    adicionarVizinho false t vizinho w = Exit EXIT_FAILURE w' /\
    territory_at w' t = Some (set_neighbors NULL tr) /\
    (forall k, Ptr k ≠ t -> heap w' !! k = heap w !! k) /\
    console w' = console w ++ [MsgPerror "realloc neighbors"].
Proof.
  intros Ht Hn.
  destruct (territory_at_Some _ _ _ Ht) as (lt & -> & Hlt).
  unfold adicionarVizinho.
  rewrite (bind_Ret _ _ _ _ _ (get_territory_ok _ _ _ Ht)).
  erewrite bind_Ret by (apply int_val_ok; int_lia).
  assert (realloc false (neighbors tr)
            ((sizeof_ptr * ((nNeighbors tr + 1) mod size_modulus)) mod size_modulus) w
          = Ret NULL w) as Hre.
  { unfold realloc.
    rewrite (Z.mod_small (nNeighbors tr + 1)) by int_lia.
    rewrite Z.mod_small by int_lia.
    rewrite (proj2 (Z.eqb_neq _ 0)) by int_lia. done. }
  rewrite (bind_Ret _ _ _ _ _ Hre).
  destruct w as [h c]. simpl in *. do 2 step.
  eexists. split; [reflexivity|]. simpl.
  split; [by rewrite lookup_insert_eq|].
  split; [|done]. intros k Hk. apply lookup_insert_ne. congruence.
Qed.

(** X9.  Adding an edge opens the attack.  Once [adicionarVizinho(t, v)]
    has returned, for a territory [v] other than [t], [validarAtaque(t, v,
    p)] depends on ownership and armies only: it returns 1 exactly when
    [t.owner == p], [v.owner != p] and [t.armies >= 2] (lines 50-57, then
    81-102). *)
Theorem adicionarVizinho_then_validarAtaque w t v tr tv ns p :
  t ≠ v ->
  territory_at w t = Some tr ->
  territory_at w v = Some tv ->
  neighbor_seq w tr = Some ns ->
  0 <= nNeighbors tr < max_int ->
  exists w' r,
    adicionarVizinho true t v w = Ret tt w' /\
    validarAtaque t v p w' = Ret r w' /\
    (r = 0 \/ r = 1) /\
    (r = 1 <-> owner tr = p /\ owner tv ≠ p /\ 2 <= armies tr).
Proof.
  intros Hne Ht Hv Hns Hn.
  destruct (territory_at_Some _ _ _ Ht) as (lt & -> & Hlt).
  destruct (territory_at_Some _ _ _ Hv) as (lv & -> & Hlv).
  assert (lv ≠ lt) as Hl by congruence.
  assert (Ptr lv ≠ neighbors tr) as Harr by (by eapply array_not_territory).
  pose proof (apos_vizinho_self w lt tr ns (Ptr lv) Ht Hns) as Ht'.
  assert (territory_at (apos_vizinho w lt tr ns (Ptr lv)) (Ptr lv) = Some tv) as Hv'.
  { unfold territory_at.
    by rewrite (apos_vizinho_other _ _ _ _ _ _ _ Hlv Hl Harr). }
  pose proof (apos_vizinho_seq w lt tr ns (Ptr lv) Hns ltac:(lia)) as Hns'.
  eexists (apos_vizinho w lt tr ns (Ptr lv)), _.
  split; [by apply adicionarVizinho_run|].
  split; [apply (validarAtaque_run _ _ _ _ _ _ _ Ht' Hv' Hns')|].
  rewrite bool_decide_eq_true_2
    by (apply elem_of_app; right; apply elem_of_cons; by left).
  rewrite andb_true_r. simpl.
  destruct (Z.eqb_spec (owner tr) p); destruct (Z.eqb_spec (owner tv) p);
    destruct (Z.leb_spec 2 (armies tr)); simpl;
    (split; [by auto|]); split; intros; try done; try lia;
    intuition (first [congruence | lia]).
Qed.

(** X10.  Edges are directed.  [adicionarVizinho(t, v)] does not change
    what [validarAtaque(v, t, p)] returns: for a territory [v] other than
    [t] that has its own array, the answer after the call is the answer
    before it, and it is 0 when [t] was not among the neighbours of [v]. *)
Theorem adicionarVizinho_directed w t v tr tv ns nsv p :
  t ≠ v ->
  territory_at w t = Some tr ->
  territory_at w v = Some tv ->
  neighbor_seq w tr = Some ns ->
  neighbor_seq w tv = Some nsv ->
  neighbors tv = NULL \/ neighbors tv ≠ neighbors tr ->
  0 <= nNeighbors tr < max_int ->
  exists w' r,
    adicionarVizinho true t v w = Ret tt w' /\
    validarAtaque v t p w = Ret r w /\
    validarAtaque v t p w' = Ret r w' /\
    (t ∉ nsv -> r = 0).
Proof.
  intros Hne Ht Hv Hns Hnsv Hshare Hn.
  destruct (territory_at_Some _ _ _ Ht) as (lt & -> & Hlt).
  destruct (territory_at_Some _ _ _ Hv) as (lv & -> & Hlv).
  assert (lv ≠ lt) as Hl by congruence.
  assert (Ptr lv ≠ neighbors tr) as Harr by (by eapply array_not_territory).
  pose proof (apos_vizinho_self w lt tr ns (Ptr lv) Ht Hns) as Ht'.
  assert (territory_at (apos_vizinho w lt tr ns (Ptr lv)) (Ptr lv) = Some tv) as Hv'.
  { unfold territory_at.
    by rewrite (apos_vizinho_other _ _ _ _ _ _ _ Hlv Hl Harr). }
  assert (neighbor_seq (apos_vizinho w lt tr ns (Ptr lv)) tv = Some nsv) as Hnsv'.
  { unfold neighbor_seq in *.
    destruct (neighbors tv) as [|b] eqn:Hb; [done|].
    destruct Hshare as [|Hshare]; [done|].
    simpl is_null in *. cbv iota in *.
    destruct (cells_at w (Ptr b)) as [csx|] eqn:Hbw; [|done].
    destruct (cells_at_Some _ _ _ Hbw) as (? & [= <-] & Hbw').
    assert (b ≠ lt) by (intros ->; by rewrite Hlt in Hbw').
    assert (cells_at (apos_vizinho w lt tr ns (Ptr lv)) (Ptr b) = Some csx) as ->;
      [|done].
    unfold cells_at. by rewrite (apos_vizinho_other _ _ _ _ _ _ _ Hbw'). }
  eexists (apos_vizinho w lt tr ns (Ptr lv)), _.
  split; [by apply adicionarVizinho_run|].
  split; [apply (validarAtaque_run _ _ _ _ _ _ _ Hv Ht Hnsv)|].
  split; [apply (validarAtaque_run _ _ _ _ _ _ _ Hv' Ht' Hnsv')|].
  intros Hnot. rewrite (bool_decide_eq_false_2 _ Hnot).
  by rewrite andb_false_r.
Qed.

(** X11.  Neighbours accumulate in call order.  After successive calls of
    [adicionarVizinho] on one territory with the pointers [vs], its count
    has grown by the number of calls and its neighbour sequence is the old
    one followed by [vs], duplicates and all; name, owner and armies are
    untouched (lines 50-57, called repeatedly). *)
Theorem adicionarVizinhos_appends vs : forall w t tr ns,
  territory_at w t = Some tr ->
  neighbor_seq w tr = Some ns ->
  0 <= nNeighbors tr ->
  nNeighbors tr + Z.of_nat (length vs) <= max_int ->
  exists w' tr',
    adicionarVizinhos t vs w = Ret tt w' /\
    territory_at w' t = Some tr' /\
    nNeighbors tr' = nNeighbors tr + Z.of_nat (length vs) /\
    neighbor_seq w' tr' = Some (ns ++ vs) /\
    name tr' = name tr /\ owner tr' = owner tr /\ armies tr' = armies tr.
Proof.
  induction vs as [|v vs IH]; intros w t tr ns Ht Hns Hn Hmax.
  - exists w, tr. simpl. rewrite Z.add_0_r, app_nil_r. done.
  - destruct (territory_at_Some _ _ _ Ht) as (lt & -> & Hlt).
    simpl length in Hmax.
    pose proof (apos_vizinho_self w lt tr ns v Ht Hns) as Ht'.
    pose proof (apos_vizinho_seq w lt tr ns v Hns Hn) as Hns'.
    destruct (IH _ _ _ _ Ht' Hns') as (w' & tr' & Hrun & Htr' & Hcount & Hseq & Hnm & Ho & Ha).
    { simpl. lia. }
    { simpl. lia. }
    exists w', tr'. simpl adicionarVizinhos.
    rewrite (bind_Ret _ _ _ _ _
               (adicionarVizinho_run w lt tr ns v Ht Hns ltac:(lia))).
    split; [exact Hrun|]. split; [exact Htr'|].
    split; [rewrite Hcount; simpl; lia|].
    split; [by rewrite Hseq, <- (assoc_L (++))|].
    done.
Qed.

(** ** Teardown of whole registries *)

Lemma read_cell_ok w p cs i v :
  cells_at w p = Some cs ->
  cs !! i = Some (Some v) ->
  read_cell p (Z.of_nat i) w = Ret v w.
Proof.
  intros Hcs Hi. unfold read_cell.
  rewrite (bind_Ret _ _ _ _ _ (get_cells_ok _ _ _ Hcs)).
  rewrite (proj2 (Z.leb_le 0 (Z.of_nat i))) by lia.
  by rewrite Nat2Z.id, Hi.
Qed.

(** Pairwise distinctness of the heads of a duplicate-free list. *)
Ltac nodup_ne H :=
  repeat (apply NoDup_cons in H as [? H]);
  repeat match goal with
         | N : _ ∉ _ :: _ |- _ => apply not_elem_of_cons in N as [? N]
         end.

Lemma bind_assoc {A B C} (m : M A) (k1 : A -> M B) (k2 : B -> M C) w :
  bind (bind m k1) k2 w = bind m (fun a => bind (k1 a) k2) w.
Proof. unfold bind. by destruct (m w). Qed.

(** One command of the teardown code. *)
Ltac passo :=
  first
    [ rewrite bind_assoc
    | step
    | erewrite bind_Ret by (eapply free_ok; view); cbv beta; simpl
    | erewrite bind_Ret by reflexivity; cbv beta; simpl ].

(** One turn of the territory loop on a [NULL] slot: [continue]. *)
Lemma liberar_territorios_null n i a w cs :
  cells_at w (Ptr a) = Some cs ->
  cs !! i = Some (Some NULL) ->
  liberar_territorios (S n) (Z.of_nat i) (Ptr a) w
  = liberar_territorios n (Z.of_nat (S i)) (Ptr a) w.
Proof.
  intros Hcs Hi. simpl liberar_territorios.
  rewrite (bind_Ret _ _ _ _ _ (read_cell_ok _ _ _ _ _ Hcs Hi)). simpl.
  erewrite bind_Ret by reflexivity.
  by replace (Z.of_nat i + 1) with (Z.of_nat (S i)) by lia.
Qed.

(** One turn of the territory loop on a live slot: name, array and struct
    are released and the slot is set to [NULL]. *)
Lemma liberar_territorios_slot n i a h c cs l t :
  h !! a = Some (BPtrs cs) ->
  cs !! i = Some (Some (Ptr l)) ->
  h !! l = Some (BTerritory t) ->
  (forall k, k ∈ territorio_locs (Some (l, t)) -> is_Some (h !! k)) ->
  NoDup (a :: territorio_locs (Some (l, t))) ->
  liberar_territorios (S n) (Z.of_nat i) (Ptr a) (mkWorld h c)
  = liberar_territorios n (Z.of_nat (S i)) (Ptr a)
      (mkWorld (<[a := BPtrs (<[i := Some NULL]> cs)]>
                  (foldr delete h (territorio_locs (Some (l, t))))) c).
Proof.
  intros Ha Hi Hl Halloc Hnd.
  assert (i < length cs)%nat as Hlt by (eapply lookup_lt_Some; eauto).
  simpl liberar_territorios.
  erewrite bind_Ret by (eapply read_cell_ok; [simpl; by rewrite Ha | done]).
  simpl is_null. cbv iota.
  replace (Z.of_nat i + 1) with (Z.of_nat (S i)) by lia.
  rewrite (bind_Ret _ _ _ tt
    (mkWorld (<[a := BPtrs (<[i := Some NULL]> cs)]>
                (foldr delete h (territorio_locs (Some (l, t))))) c));
    [reflexivity|].
  destruct t as [[|nm] to ta tk [|ar]]; simpl in Halloc, Hnd |- *;
    nodup_ne Hnd;
    try (assert (is_Some (h !! nm)) as [? ?] by (apply Halloc; rewrite !elem_of_cons; tauto));
    try (assert (is_Some (h !! ar)) as [? ?] by (apply Halloc; rewrite !elem_of_cons; tauto));
    repeat passo;
    (erewrite write_cell_ok; [| view | simpl; lia]); simpl;
    rewrite Nat2Z.id; do 2 f_equal;
    apply map_eq; intros k;
    repeat match goal with
           | x : loc |- _ =>
               lazymatch goal with
               | _ : k = x |- _ => fail
               | _ : k ≠ x |- _ => fail
               | _ => destruct (decide (k = x)) as [->|]
               end
           end; by simplify_map_eq.
Qed.


Lemma foldr_delete_app (h : gmap loc block) xs ys :
  foldr delete (foldr delete h xs) ys = foldr delete h (xs ++ ys).
Proof.
  apply map_eq. intros k. apply option_eq. intros y.
  rewrite !lookup_foldr_delete_Some, not_elem_of_app. tauto.
Qed.

Lemma take_drop_cons {A} (cs : list A) i n x xs :
  take (S n) (drop i cs) = x :: xs ->
  cs !! i = Some x /\ take n (drop (S i) cs) = xs.
Proof.
  intros H. destruct (drop i cs) as [|y ys] eqn:Hd; [done|].
  simpl in H. injection H as -> <-.
  split.
  - rewrite <- (Nat.add_0_r i), <- lookup_drop, Hd. done.
  - replace (S i) with (i + 1)%nat by lia. rewrite <- drop_drop, Hd. done.
Qed.

Section Registro.
Variable a : loc.

(** The territory loop over the slots [es], from index [i]. *)
Lemma liberar_territorios_run es : forall i h c cs,
  h !! a = Some (BPtrs cs) ->
  take (length es) (drop i cs) = (fun e => Some (slot_ptr e)) <$> es ->
  (forall l x, Some (l, x) ∈ es -> h !! l = Some (BTerritory x)) ->
  (forall k, k ∈ es ≫= territorio_locs -> is_Some (h !! k)) ->
  NoDup (a :: (es ≫= territorio_locs)) ->
  liberar_territorios (length es) (Z.of_nat i) (Ptr a) (mkWorld h c)
  = Ret tt (mkWorld
      (<[a := BPtrs (take i cs ++ replicate (length es) (Some NULL)
                       ++ drop (i + length es) cs)]>
         (foldr delete h (es ≫= territorio_locs))) c).
Proof.
  induction es as [|e es IH]; intros i h c cs Ha Hcells Hent Halloc Hnd.
  - simpl. rewrite Nat.add_0_r, take_drop. by rewrite insert_id.
  - simpl length in *. rewrite fmap_cons in Hcells.
    apply take_drop_cons in Hcells as [Hi Hrest].
    assert (i < length cs)%nat as Hlt by (eapply lookup_lt_Some; eauto).
    rewrite bind_cons in Hnd, Halloc.
    apply NoDup_cons in Hnd as [Hna Hnd].
    apply not_elem_of_app in Hna as [Hna1 Hna2].
    apply NoDup_app in Hnd as (Hnd1 & Hdisj & Hnd2).
    assert (NoDup (a :: (es ≫= territorio_locs))) as Hnd' by (by apply NoDup_cons).
    destruct e as [[l t]|].
    + rewrite (liberar_territorios_slot (length es) i a h c cs l t Ha Hi).
      * rewrite (IH (S i) _ c (<[i := Some NULL]> cs)).
        -- rewrite bind_cons.
           rewrite foldr_delete_insert_notin by done.
           rewrite insert_insert_eq, foldr_delete_app.
           rewrite (take_S_r _ _ (Some NULL)) by (by apply list_lookup_insert_eq).
           rewrite take_insert_ge by lia.
           rewrite drop_insert_lt by lia.
           rewrite <- (assoc_L (++)). simpl.
           by replace (i + S (length es))%nat with (S (i + length es)) by lia.
        -- by rewrite lookup_insert_eq.
        -- by rewrite drop_insert_lt by lia.
        -- intros l' x' Hin.
           assert (l' ∈ es ≫= territorio_locs) as Hl'.
           { apply list_elem_of_bind. exists (Some (l', x')). split; [|done].
             simpl. rewrite !elem_of_app, elem_of_cons. tauto. }
           rewrite lookup_insert_ne by (intros ->; done).
           rewrite lookup_foldr_delete_not_elem_of by (intros ?; by eapply Hdisj).
           apply Hent. by apply elem_of_cons; right.
        -- intros k Hk.
           rewrite lookup_insert_ne by (intros ->; done).
           rewrite lookup_foldr_delete_not_elem_of by (intros ?; by eapply Hdisj).
           apply Halloc. apply elem_of_app. by right.
        -- done.
      * apply Hent. by apply elem_of_cons; left.
      * intros k Hk. apply Halloc. apply elem_of_app. by left.
      * by apply NoDup_cons.
    + rewrite (liberar_territorios_null _ _ _ _ cs) by (simpl; by rewrite ?Ha).
      rewrite (IH (S i) h c cs Ha Hrest); [| |done..].
      * rewrite bind_cons. simpl.
        rewrite (take_S_r _ _ (Some NULL)) by done.
        rewrite <- (assoc_L (++)). simpl.
        by replace (i + S (length es))%nat with (S (i + length es)) by lia.
      * intros l x Hin. apply Hent. by apply elem_of_cons; right.
Qed.
End Registro.

Lemma liberar_missoes_null n j a w cs :
  cells_at w (Ptr a) = Some cs ->
  cs !! j = Some (Some NULL) ->
  liberar_missoes (S n) (Z.of_nat j) (Ptr a) w
  = liberar_missoes n (Z.of_nat (S j)) (Ptr a) w.
Proof.
  intros Hcs Hj. simpl liberar_missoes.
  rewrite (bind_Ret _ _ _ _ _ (read_cell_ok _ _ _ _ _ Hcs Hj)). simpl.
  erewrite bind_Ret by reflexivity.
  by replace (Z.of_nat j + 1) with (Z.of_nat (S j)) by lia.
Qed.

Lemma liberar_missoes_slot n j a h c cs l m :
  h !! a = Some (BPtrs cs) ->
  cs !! j = Some (Some (Ptr l)) ->
  h !! l = Some (BMission m) ->
  (forall k, k ∈ missao_locs (Some (l, m)) -> is_Some (h !! k)) ->
  NoDup (a :: missao_locs (Some (l, m))) ->
  liberar_missoes (S n) (Z.of_nat j) (Ptr a) (mkWorld h c)
  = liberar_missoes n (Z.of_nat (S j)) (Ptr a)
      (mkWorld (<[a := BPtrs (<[j := Some NULL]> cs)]>
                  (foldr delete h (missao_locs (Some (l, m))))) c).
Proof.
  intros Ha Hj Hl Halloc Hnd.
  assert (j < length cs)%nat as Hlt by (eapply lookup_lt_Some; eauto).
  simpl liberar_missoes.
  erewrite bind_Ret by (eapply read_cell_ok; [simpl; by rewrite Ha | done]).
  simpl is_null. cbv iota.
  replace (Z.of_nat j + 1) with (Z.of_nat (S j)) by lia.
  rewrite (bind_Ret _ _ _ tt
    (mkWorld (<[a := BPtrs (<[j := Some NULL]> cs)]>
                (foldr delete h (missao_locs (Some (l, m))))) c));
    [reflexivity|].
  erewrite bind_Ret by (apply get_mission_ok; view). cbv beta.
  destruct m as [[|d] o]; simpl in Halloc, Hnd |- *;
    nodup_ne Hnd;
    try (assert (is_Some (h !! d)) as [? ?]
           by (apply Halloc; rewrite !elem_of_cons; tauto));
    repeat first
      [ rewrite bind_assoc
      | erewrite bind_Ret by (eapply free_ok; view); cbv beta; simpl
      | erewrite bind_Ret by (apply set_mfield_ok; view); cbv beta; simpl
      | erewrite bind_Ret by reflexivity; cbv beta; simpl ];
    (erewrite write_cell_ok; [| view | simpl; lia]); simpl;
    rewrite Nat2Z.id; do 2 f_equal;
    apply map_eq; intros k;
    repeat match goal with
           | x : loc |- _ =>
               lazymatch goal with
               | _ : k = x |- _ => fail
               | _ : k ≠ x |- _ => fail
               | _ => destruct (decide (k = x)) as [->|]
               end
           end; by simplify_map_eq.
Qed.

(** The mission loop over the slots [es], from index [j]. *)
Lemma liberar_missoes_run a es : forall j h c cs,
  h !! a = Some (BPtrs cs) ->
  take (length es) (drop j cs) = (fun e => Some (slot_ptr e)) <$> es ->
  (forall l x, Some (l, x) ∈ es -> h !! l = Some (BMission x)) ->
  (forall k, k ∈ es ≫= missao_locs -> is_Some (h !! k)) ->
  NoDup (a :: (es ≫= missao_locs)) ->
  liberar_missoes (length es) (Z.of_nat j) (Ptr a) (mkWorld h c)
  = Ret tt (mkWorld
      (<[a := BPtrs (take j cs ++ replicate (length es) (Some NULL)
                       ++ drop (j + length es) cs)]>
         (foldr delete h (es ≫= missao_locs))) c).
Proof.
  induction es as [|e es IH]; intros i h c cs Ha Hcells Hent Halloc Hnd.
  - simpl. rewrite Nat.add_0_r, take_drop. by rewrite insert_id.
  - simpl length in *. rewrite fmap_cons in Hcells.
    apply take_drop_cons in Hcells as [Hi Hrest].
    assert (i < length cs)%nat as Hlt by (eapply lookup_lt_Some; eauto).
    rewrite bind_cons in Hnd, Halloc.
    apply NoDup_cons in Hnd as [Hna Hnd].
    apply not_elem_of_app in Hna as [Hna1 Hna2].
    apply NoDup_app in Hnd as (Hnd1 & Hdisj & Hnd2).
    assert (NoDup (a :: (es ≫= missao_locs))) as Hnd' by (by apply NoDup_cons).
    destruct e as [[l t]|].
    + rewrite (liberar_missoes_slot (length es) i a h c cs l t Ha Hi).
      * rewrite (IH (S i) _ c (<[i := Some NULL]> cs)).
        -- rewrite bind_cons.
           rewrite foldr_delete_insert_notin by done.
           rewrite insert_insert_eq, foldr_delete_app.
           rewrite (take_S_r _ _ (Some NULL)) by (by apply list_lookup_insert_eq).
           rewrite take_insert_ge by lia.
           rewrite drop_insert_lt by lia.
           rewrite <- (assoc_L (++)). simpl.
           by replace (i + S (length es))%nat with (S (i + length es)) by lia.
        -- by rewrite lookup_insert_eq.
        -- by rewrite drop_insert_lt by lia.
        -- intros l' x' Hin.
           assert (l' ∈ es ≫= missao_locs) as Hl'.
           { apply list_elem_of_bind. exists (Some (l', x')). split; [|done].
             simpl. rewrite !elem_of_app, elem_of_cons. tauto. }
           rewrite lookup_insert_ne by (intros ->; done).
           rewrite lookup_foldr_delete_not_elem_of by (intros ?; by eapply Hdisj).
           apply Hent. by apply elem_of_cons; right.
        -- intros k Hk.
           rewrite lookup_insert_ne by (intros ->; done).
           rewrite lookup_foldr_delete_not_elem_of by (intros ?; by eapply Hdisj).
           apply Halloc. apply elem_of_app. by right.
        -- done.
      * apply Hent. by apply elem_of_cons; left.
      * intros k Hk. apply Halloc. apply elem_of_app. by left.
      * by apply NoDup_cons.
    + rewrite (liberar_missoes_null _ _ _ _ cs) by (simpl; by rewrite ?Ha).
      rewrite (IH (S i) h c cs Ha Hrest); [| |done..].
      * rewrite bind_cons. simpl.
        rewrite (take_S_r _ _ (Some NULL)) by done.
        rewrite <- (assoc_L (++)). simpl.
        by replace (i + S (length es))%nat with (S (i + length es)) by lia.
      * intros l x Hin. apply Hent. by apply elem_of_cons; right.
Qed.

(** The two halves of [liberarMemoria] on a registry. *)
Lemma liberar_registro_territorios_run w ts n es :
  registro_territorios w ts n es ->
  NoDup (pegada territorio_locs ts es) ->
  liberar_registro_territorios ts n w
  = Ret tt (mkWorld (foldr delete (heap w) (pegada territorio_locs ts es))
                    (console w)).
Proof.
  intros Hreg Hnd. destruct w as [h c]. unfold pegada in *.
  destruct ts as [|a]; simpl in Hreg.
  - subst es. done.
  - destruct Hreg as (cs & Ha & Hlen & Hcells & Hent & Halloc).
    simpl in Hnd. apply NoDup_app in Hnd as (Hnd1 & Hdisj & _).
    assert (a ∉ es ≫= territorio_locs) as Hna.
    { intros Hin. apply (Hdisj _ Hin). by apply elem_of_cons; left. }
    unfold liberar_registro_territorios.
    change (negb (is_null (Ptr a))) with true. cbv iota.
    rewrite <- Hlen.
    erewrite bind_Ret
      by (apply (liberar_territorios_run a es 0 h c cs); try done;
          by apply NoDup_cons).
    erewrite free_ok by (simpl; by rewrite lookup_insert_eq).
    simpl. rewrite delete_insert_eq.
    rewrite <- foldr_delete_app. simpl.
    by rewrite delete_foldr_delete.
Qed.

Lemma liberar_registro_missoes_run w ms n es :
  registro_missoes w ms n es ->
  NoDup (pegada missao_locs ms es) ->
  liberar_registro_missoes ms n w
  = Ret tt (mkWorld (foldr delete (heap w) (pegada missao_locs ms es))
                    (console w)).
Proof.
  intros Hreg Hnd. destruct w as [h c]. unfold pegada in *.
  destruct ms as [|a]; simpl in Hreg.
  - subst es. done.
  - destruct Hreg as (cs & Ha & Hlen & Hcells & Hent & Halloc).
    simpl in Hnd. apply NoDup_app in Hnd as (Hnd1 & Hdisj & _).
    assert (a ∉ es ≫= missao_locs) as Hna.
    { intros Hin. apply (Hdisj _ Hin). by apply elem_of_cons; left. }
    unfold liberar_registro_missoes.
    change (negb (is_null (Ptr a))) with true. cbv iota.
    rewrite <- Hlen.
    erewrite bind_Ret
      by (apply (liberar_missoes_run a es 0 h c cs); try done;
          by apply NoDup_cons).
    erewrite free_ok by (simpl; by rewrite lookup_insert_eq).
    simpl. rewrite delete_insert_eq.
    rewrite <- foldr_delete_app. simpl.
    by rewrite delete_foldr_delete.
Qed.

(** A registry stays what it is when blocks outside it are released. *)
Lemma registro_ok_foldr_delete {A} (inj : A -> block) locs w p n
    (es : list (option (loc * A))) js :
  (forall l x, l ∈ locs (Some (l, x))) ->
  registro_ok inj locs w p n es ->
  (forall k, k ∈ pegada locs p es -> k ∉ js) ->
  registro_ok inj locs (mkWorld (foldr delete (heap w) js) (console w)) p n es.
Proof.
  intros Hself Hreg Hdisj. destruct p as [|a]; [done|]. simpl in *.
  destruct Hreg as (cs & Ha & Hlen & Hcells & Hent & Halloc).
  exists cs. split.
  { rewrite lookup_foldr_delete_not_elem_of; [done|].
    apply Hdisj. unfold pegada. apply elem_of_app. right.
    by apply elem_of_cons; left. }
  split; [done|]. split; [done|]. split.
  - intros l x Hin. rewrite lookup_foldr_delete_not_elem_of; [by apply Hent|].
    apply Hdisj. unfold pegada. apply elem_of_app. left.
    apply list_elem_of_bind. exists (Some (l, x)). split; [apply Hself | done].
  - intros k Hk. rewrite lookup_foldr_delete_not_elem_of; [by apply Halloc|].
    apply Hdisj. unfold pegada. apply elem_of_app. by left.
Qed.

(** [liberarMemoria] on two registries that share no block. *)
Lemma liberarMemoria_run w ts n es ms m ems :
  registro_territorios w ts n es ->
  registro_missoes w ms m ems ->
  NoDup (pegada territorio_locs ts es ++ pegada missao_locs ms ems) ->
  liberarMemoria ts n ms m w
  = Ret tt (mkWorld
      (foldr delete (heap w)
         (pegada territorio_locs ts es ++ pegada missao_locs ms ems))
      (console w)).
Proof.
  intros Ht Hm Hnd.
  apply NoDup_app in Hnd as (Hnd1 & Hdisj & Hnd2).
  unfold liberarMemoria.
  rewrite (bind_Ret _ _ _ _ _ (liberar_registro_territorios_run _ _ _ _ Ht Hnd1)).
  rewrite (liberar_registro_missoes_run _ ms m ems); [|..|done].
  - simpl. by rewrite foldr_delete_app.
  - apply (registro_ok_foldr_delete BMission missao_locs w ms m ems); [|done|].
    + intros l x. simpl. apply elem_of_app. right. by apply elem_of_cons; left.
    + intros k Hk Hin. by apply (Hdisj k).
Qed.

Lemma bind_Undef {A B} (m : M A) (k : A -> M B) w :
  m w = Undef -> bind m k w = Undef.
Proof. intros H. unfold bind. by rewrite H. Qed.



Lemma slot_in_pegada es ts l (x : Territory) :
  Some (l, x) ∈ es -> l ∈ pegada territorio_locs ts es.
Proof.
  intros Hin. unfold pegada. apply elem_of_app. left.
  apply list_elem_of_bind. exists (Some (l, x)). split; [|done].
  simpl. rewrite !elem_of_app, elem_of_cons. tauto.
Qed.

(** X12.  No leak.  On a registry of territories and a registry of missions
    that are laid out as [liberarMemoria] expects (each pointer [NULL] or
    an array of [n] slots, each slot [NULL] or a live entity whose name or
    description and neighbour array are [NULL] or allocated) and that share
    no block, [liberarMemoria] returns, every block the registries own has
    been released (names, descriptions, neighbour arrays, structs and the
    two arrays), every other block is unchanged and nothing is printed
    (lines 137-182). *)
Theorem liberarMemoria_releases w ts n es ms m ems :
  registro_territorios w ts n es ->
  registro_missoes w ms m ems ->
  NoDup (pegada territorio_locs ts es ++ pegada missao_locs ms ems) ->
  exists w',
    liberarMemoria ts n ms m w = Ret tt w' /\
    (forall k, k ∈ pegada territorio_locs ts es ++ pegada missao_locs ms ems ->
               heap w' !! k = None) /\
    (forall k, k ∉ pegada territorio_locs ts es ++ pegada missao_locs ms ems ->
               heap w' !! k = heap w !! k) /\
    console w' = console w.
Proof.
  intros Ht Hm Hnd. eexists.
  split; [by apply liberarMemoria_run|]. simpl.
  split; [intros k Hk; by apply lookup_foldr_delete|].
  split; [intros k Hk; by apply lookup_foldr_delete_not_elem_of | done].
Qed.


(** X14.  Use after release is undefined.  After [liberarMemoria] has
    returned, validating or resolving an attack between two territories of
    the released registry is undefined, whatever the player and the
    rolls. *)
Theorem liberarMemoria_then_use w ts n es ms m ems :
  registro_territorios w ts n es ->
  registro_missoes w ms m ems ->
  NoDup (pegada territorio_locs ts es ++ pegada missao_locs ms ems) ->
  exists w',
    liberarMemoria ts n ms m w = Ret tt w' /\
    forall l x l' x' p r1 r2,
      Some (l, x) ∈ es -> Some (l', x') ∈ es ->
      validarAtaque (Ptr l) (Ptr l') p w' = Undef /\
      resolverAtaque r1 r2 (Ptr l) (Ptr l') w' = Undef.
Proof.
  intros Ht Hm Hnd. eexists.
  split; [by apply liberarMemoria_run|].
  intros l x l' x' p r1 r2 Hl Hl'.
  set (w' := mkWorld _ _).
  assert (heap w' !! l = None) as Hnone.
  { apply lookup_foldr_delete. apply elem_of_app. left.
    by eapply slot_in_pegada. }
  assert (heap w' !! l' = None) as Hnone'.
  { apply lookup_foldr_delete. apply elem_of_app. left.
    by eapply slot_in_pegada. }
  clearbody w'.
  assert (forall c, get_territory (Ptr l) (mkWorld (heap w') c) = Undef) as Hg
    by (intros c; unfold get_territory, bind, load; simpl; by rewrite Hnone).
  assert (forall c, get_territory (Ptr l') (mkWorld (heap w') c) = Undef) as Hg'
    by (intros c; unfold get_territory, bind, load; simpl; by rewrite Hnone').
  destruct w' as [h' c']. simpl in Hg, Hg'. split.
  - unfold validarAtaque. simpl. by apply bind_Undef.
  - unfold resolverAtaque. erewrite bind_Ret by apply printf_ok. simpl.
    destruct (dado r1 >? dado r2); by apply bind_Undef.
Qed.

(** ** What [validarAtaque] never does *)

Lemma reads_ret {A} (P : A -> Prop) a : P a -> reads P (ret a).
Proof. intros Ha w. by split. Qed.

Lemma reads_undef {A} (P : A -> Prop) : reads P undef.
Proof. by intros w. Qed.

Lemma reads_bind {A B} (Q : A -> Prop) (P : B -> Prop) m k :
  reads Q m -> (forall a, Q a -> reads P (k a)) -> reads P (bind m k).
Proof.
  intros Hm Hk w. unfold bind. specialize (Hm w).
  destruct (m w) as [a w'| |]; [|done..].
  destruct Hm as [-> Ha]. apply (Hk a Ha).
Qed.

Lemma reads_load p : reads (fun _ => True) (load p).
Proof.
  intros w. unfold load. destruct p as [|l]; [done|].
  by destruct (heap w !! l).
Qed.

Lemma reads_get_territory p : reads (fun _ => True) (get_territory p).
Proof.
  unfold get_territory. eapply reads_bind; [apply reads_load|].
  intros [] _; first [by apply reads_ret | apply reads_undef].
Qed.

Lemma reads_read_cell a i : reads (fun _ => True) (read_cell a i).
Proof.
  unfold read_cell, get_cells.
  eapply reads_bind.
  { eapply reads_bind; [apply reads_load|].
    intros [] _; first [by apply (reads_ret (fun _ => True)) | apply reads_undef]. }
  intros cs _. destruct (0 <=? i); [|apply reads_undef].
  destruct (cs !! Z.to_nat i) as [[v|]|];
    first [by apply reads_ret | apply reads_undef].
Qed.

Lemma reads_procurar_vizinho n : forall i from to,
  reads (fun r => r = 0 \/ r = 1) (procurar_vizinho n i from to).
Proof.
  induction n as [|n IH]; intros i from to; simpl.
  - apply reads_ret. by left.
  - eapply reads_bind; [apply reads_get_territory|]. intros f _.
    eapply reads_bind; [apply reads_read_cell|]. intros v _.
    destruct (decide (v = to)); [apply reads_ret; by right | apply IH].
Qed.

(** X15.  [validarAtaque] has no effect, whatever it is given: for every
    pair of pointers, player and world, also one whose memory is not laid
    out as the program expects, the call never ends the process, and
    whenever it returns the result is 0 or 1 and memory and console are
    exactly as before (lines 81-102). *)
Theorem validarAtaque_pure from to p w :
  match validarAtaque from to p w with
  | Ret r w' => w' = w /\ (r = 0 \/ r = 1)
  | Exit _ _ => False
  | Undef => True
  end.
Proof.
  revert w. change (reads (fun r => r = 0 \/ r = 1) (validarAtaque from to p)).
  unfold validarAtaque.
  destruct (is_null from || is_null to); [apply reads_ret; by left|].
  eapply reads_bind; [apply reads_get_territory|]. intros f _.
  destruct (negb (owner f =? p)); [apply reads_ret; by left|].
  eapply reads_bind; [apply reads_get_territory|]. intros t _.
  destruct (owner t =? p); [apply reads_ret; by left|].
  eapply reads_bind; [apply reads_get_territory|]. intros f' _.
  destruct (armies f' <? 2); [apply reads_ret; by left|].
  eapply reads_bind; [apply reads_get_territory|]. intros f'' _.
  eapply reads_bind; [apply reads_procurar_vizinho|]. intros r Hr.
  destruct (r =? 0); apply reads_ret; auto.
Qed.

(** ** Teardown after a combat *)

Lemma from_apos_pointers f t r1 r2 :
  name (from_apos f t r1 r2) = name f /\
  neighbors (from_apos f t r1 r2) = neighbors f.
Proof. unfold from_apos. repeat case_match; done. Qed.

Lemma to_apos_pointers f t r1 r2 :
  name (to_apos f t r1 r2) = name t /\
  neighbors (to_apos f t r1 r2) = neighbors t.
Proof. unfold to_apos. repeat case_match; done. Qed.

(** A combat changes no pointer, so the slots own the same blocks. *)
Lemma slot_apos_combate_locs (h : gmap loc block) lf lt f t r1 r2 es :
  h !! lf = Some (BTerritory f) ->
  h !! lt = Some (BTerritory t) ->
  (forall l x, Some (l, x) ∈ es -> h !! l = Some (BTerritory x)) ->
  (slot_apos_combate lf lt (from_apos f t r1 r2) (to_apos f t r1 r2) <$> es)
    ≫= territorio_locs
  = es ≫= territorio_locs.
Proof.
  intros Hlf Hlt. induction es as [|e es IH]; intros Hent; [done|].
  rewrite fmap_cons, !bind_cons.
  rewrite IH by (intros l x Hin; apply Hent; by apply elem_of_cons; right).
  f_equal. destruct e as [[l x]|]; [|done].
  assert (h !! l = Some (BTerritory x)) as Hl
    by (apply Hent; by apply elem_of_cons; left).
  simpl. destruct (decide (l = lf)) as [->|]; [|destruct (decide (l = lt)) as [->|]].
  - assert (x = f) as -> by congruence.
    by destruct (from_apos_pointers f t r1 r2) as [-> ->].
  - assert (x = t) as -> by congruence.
    by destruct (to_apos_pointers f t r1 r2) as [-> ->].
  - done.
Qed.

(** A territory registry is still one after a combat, with the structs of
    the two combatants brought up to date. *)
Lemma registro_territorios_apos_combate w lf lt f t nf nt r1 r2 ts n es :
  lf ≠ lt ->
  territory_at w (Ptr lf) = Some f ->
  territory_at w (Ptr lt) = Some t ->
  registro_territorios w ts n es ->
  registro_territorios (apos_combate w lf lt f t nf nt r1 r2) ts n
    (slot_apos_combate lf lt (from_apos f t r1 r2) (to_apos f t r1 r2) <$> es).
Proof.
  intros Hne Hfrom Hto Hreg.
  unfold registro_territorios, registro_ok in Hreg |- *.
  destruct ts as [|a].
  { by subst es. }
  destruct Hreg as (cs & Ha & Hlen & Hcells & Hent & Halloc).
  destruct (territory_at_Some _ _ _ Hfrom) as (? & [= <-] & Hlf).
  destruct (territory_at_Some _ _ _ Hto) as (? & [= <-] & Hlt).
  exists cs. split.
  { destruct (apos_combate_block w lf lt f t nf nt r1 r2 a Hfrom Hto)
      as [->|(x & y & _ & Hy)]; [done | congruence]. }
  split; [by rewrite length_fmap|].
  split.
  { rewrite length_fmap, Hcells, <- list_fmap_compose.
    apply list_fmap_ext. intros i [[l x]|] _; done. }
  split.
  - intros l x' Hin. apply list_elem_of_fmap in Hin as ([[l0 x0]|] & Heq & Hin);
      [|done].
    simpl in Heq. injection Heq as -> ->.
    pose proof (Hent _ _ Hin) as Hl0.
    destruct (decide (l0 = lf)) as [->|]; [|destruct (decide (l0 = lt)) as [->|]].
    + pose proof (apos_combate_from w lf lt f t nf nt r1 r2 Hne Hfrom) as H'.
      by destruct (territory_at_Some _ _ _ H') as (? & [= <-] & ->).
    + pose proof (apos_combate_to w lf lt f t nf nt r1 r2 Hne Hto) as H'.
      by destruct (territory_at_Some _ _ _ H') as (? & [= <-] & ->).
    + by rewrite apos_combate_other.
  - intros k Hk.
    rewrite (slot_apos_combate_locs (heap w) lf lt f t r1 r2 es Hlf Hlt Hent) in Hk.
    apply elem_of_dom. rewrite (apos_combate_dom _ _ _ _ _ _ _ _ _ Hfrom Hto).
    apply elem_of_dom. by apply Halloc.
Qed.

(** A mission registry is untouched by a combat. *)
Lemma registro_missoes_apos_combate w lf lt f t nf nt r1 r2 ms m ems :
  territory_at w (Ptr lf) = Some f ->
  territory_at w (Ptr lt) = Some t ->
  registro_missoes w ms m ems ->
  registro_missoes (apos_combate w lf lt f t nf nt r1 r2) ms m ems.
Proof.
  intros Hfrom Hto Hreg.
  unfold registro_missoes, registro_ok in Hreg |- *.
  destruct ms as [|a]; [done|].
  destruct Hreg as (cs & Ha & Hlen & Hcells & Hent & Halloc).
  exists cs. split.
  { destruct (apos_combate_block w lf lt f t nf nt r1 r2 a Hfrom Hto)
      as [->|(x & y & _ & Hy)]; [done | congruence]. }
  split; [done|]. split; [done|]. split.
  - intros l x Hin. pose proof (Hent _ _ Hin) as Hl.
    destruct (apos_combate_block w lf lt f t nf nt r1 r2 l Hfrom Hto)
      as [->|(x' & y & _ & Hy)]; [done | congruence].
  - intros k Hk. apply elem_of_dom.
    rewrite (apos_combate_dom _ _ _ _ _ _ _ _ _ Hfrom Hto).
    apply elem_of_dom. by apply Halloc.
Qed.

(** X16.  A combat does not get in the way of the teardown, which is the
    order [main] follows (lines 217-225).  After [resolverAtaque] between
    two distinct territories, [liberarMemoria] on registries laid out as it
    expects still returns and releases every block they own; of the blocks
    they do not own, all but the structs of the two combatants are as
    before the combat.  So when both combatants belong to the registry,
    memory ends up exactly as if the combat had not taken place. *)
Theorem resolverAtaque_then_liberarMemoria
    w from to f t nf nt r1 r2 ts n es ms m ems :
  from ≠ to ->
  territory_at w from = Some f ->
  territory_at w to = Some t ->
  text_at w (name f) = Some nf ->
  text_at w (name t) = Some nt ->
  min_int < armies f <= max_int ->
  min_int < armies t <= max_int ->
  registro_territorios w ts n es ->
  registro_missoes w ms m ems ->
  NoDup (pegada territorio_locs ts es ++ pegada missao_locs ms ems) ->
  exists w' w'',
    resolverAtaque r1 r2 from to w = Ret tt w' /\
    liberarMemoria ts n ms m w' = Ret tt w'' /\
    (forall k, k ∈ pegada territorio_locs ts es ++ pegada missao_locs ms ems ->
               heap w'' !! k = None) /\
    (forall k, k ∉ pegada territorio_locs ts es ++ pegada missao_locs ms ems ->
               Ptr k ≠ from -> Ptr k ≠ to ->
               heap w'' !! k = heap w !! k) /\
    (forall lf lt xf xt,
       from = Ptr lf -> to = Ptr lt ->
       Some (lf, xf) ∈ es -> Some (lt, xt) ∈ es ->
       heap w'' = foldr delete (heap w)
         (pegada territorio_locs ts es ++ pegada missao_locs ms ems)).
Proof.
  intros Hne Hfrom Hto Hnf Hnt Hfa Hta Ht Hm Hnd.
  destruct (territory_at_Some _ _ _ Hfrom) as (lf & -> & Hlf).
  destruct (territory_at_Some _ _ _ Hto) as (lt & -> & Hlt).
  assert (lf ≠ lt) as Hl by congruence.
  pose proof (registro_territorios_apos_combate w lf lt f t nf nt r1 r2 ts n es
                Hl Hfrom Hto Ht) as Ht'.
  pose proof (registro_missoes_apos_combate w lf lt f t nf nt r1 r2 ms m ems
                Hfrom Hto Hm) as Hm'.
  assert (pegada territorio_locs ts
            (slot_apos_combate lf lt (from_apos f t r1 r2) (to_apos f t r1 r2) <$> es)
          = pegada territorio_locs ts es) as Hpeg.
  { unfold pegada. f_equal.
    apply (slot_apos_combate_locs (heap w)); [done..|].
    destruct ts as [|a]; simpl in Ht.
    - subst es. intros l x Hin. by apply elem_of_nil in Hin.
    - by destruct Ht as (cs & _ & _ & _ & Hent & _). }
  eexists (apos_combate w lf lt f t nf nt r1 r2), _.
  split; [by apply resolverAtaque_run|].
  split.
  { apply (liberarMemoria_run _ _ _ _ _ _ _ Ht' Hm'). by rewrite Hpeg. }
  rewrite Hpeg. simpl.
  split; [intros k Hk; by apply lookup_foldr_delete|].
  split.
  { intros k Hk Hkf Hkt.
    rewrite lookup_foldr_delete_not_elem_of by done.
    apply apos_combate_other; congruence. }
  intros lf' lt' xf xt [= <-] [= <-] Hinf Hint.
  apply map_eq. intros k.
  destruct (decide (k ∈ pegada territorio_locs ts es ++ pegada missao_locs ms ems))
    as [Hk|Hk].
  - by rewrite !lookup_foldr_delete.
  - rewrite !lookup_foldr_delete_not_elem_of by done.
    apply apos_combate_other.
    + intros ->. apply Hk. apply elem_of_app. left. by eapply slot_in_pegada.
    + intros ->. apply Hk. apply elem_of_app. left. by eapply slot_in_pegada.
Qed.

(** ** A territory without neighbours *)

(** X17.  A territory just created cannot attack: between
    [criarTerritorio] and the first [adicionarVizinho] its neighbour
    sequence is empty, so [validarAtaque] from it returns 0 against every
    territory that existed before and against itself, for every player
    (lines 44-45, then 96-100). *)
Theorem criarTerritorio_then_validarAtaque w nome o a q x p :
  territory_at w q = Some x ->
  exists l w',
    criarTerritorio true true nome o a w = Ret (Ptr l) w' /\
    validarAtaque (Ptr l) q p w' = Ret 0 w' /\
    validarAtaque (Ptr l) (Ptr l) p w' = Ret 0 w'.
Proof.
  intros Hq.
  pose proof (fresh_lookup (heap w)) as Hl.
  pose proof (fresh_lookup
    (<[fresh (dom (heap w)) := BTerritory (mkTerritory NULL 0 0 0 NULL)]> (heap w)))
    as Hl2.
  apply lookup_insert_None in Hl2 as [Hl2 Hne].
  pose proof (territory_at_mono _ _ _ _ (apos_criar_grows w nome o a) Hq) as Hq'.
  eexists _, _. split; [apply criarTerritorio_run|].
  set (w' := (apos_criar w nome o a).2) in *.
  set (tr := mkTerritory
               (Ptr (fresh (dom (<[fresh (dom (heap w))
                                   := BTerritory (mkTerritory NULL 0 0 0 NULL)]>
                                   (heap w))))) o a 0 NULL).
  assert (territory_at w' (Ptr (apos_criar w nome o a).1) = Some tr) as Ht.
  { unfold w', apos_criar. simpl. by rewrite lookup_insert_eq. }
  assert (neighbor_seq w' tr = Some []) as Hns by done.
  split.
  - rewrite (validarAtaque_run _ _ _ _ _ _ _ Ht Hq' Hns).
    rewrite bool_decide_eq_false_2 by apply not_elem_of_nil.
    by rewrite andb_false_r.
  - rewrite (validarAtaque_run _ _ _ _ _ _ _ Ht Ht Hns).
    rewrite bool_decide_eq_false_2 by apply not_elem_of_nil.
    by rewrite andb_false_r.
Qed.

(** ** Instances of the further properties *)

(** Membership in a list given by its elements is absurd once every
    element has been ruled out. *)
Ltac sem_membros H := exact (False_ind _ (proj1 (elem_of_nil _) H)).

(** The layout of a registry of an example world, by evaluation. *)
Ltac registro_calc cs :=
  exists cs;
  split; [calc|]; split; [calc|]; split; [calc|]; split;
  [ intros ? ? Hin;
    repeat (apply elem_of_cons in Hin as [Hin|Hin];
            [injection Hin as -> ->; calc|]);
    sem_membros Hin
  | intros ? Hin; vm_compute in Hin;
    repeat (apply elem_of_cons in Hin as [->|Hin]; [eexists; calc|]);
    sem_membros Hin ].

Lemma resolverAtaque_one_army_lost_witness :
  (p_amazonia ≠ p_sertao /\
   territory_at mundo_exemplo p_amazonia = Some amazonia /\
   territory_at mundo_exemplo p_sertao = Some sertao /\
   text_at mundo_exemplo (name amazonia) = Some "Amazonia"%string /\
   text_at mundo_exemplo (name sertao) = Some "Sertao"%string /\
   min_int < armies amazonia <= max_int /\
   1 <= armies sertao <= max_int) /\
  exists w' f' t',
    resolverAtaque 5 2 p_amazonia p_sertao mundo_exemplo = Ret tt w' /\
    territory_at w' p_amazonia = Some f' /\
    territory_at w' p_sertao = Some t' /\
    armies f' + armies t' = 7.
Proof.
  assert (p_amazonia ≠ p_sertao) as H0 by discriminate.
  assert (territory_at mundo_exemplo p_amazonia = Some amazonia) as H1 by calc.
  assert (territory_at mundo_exemplo p_sertao = Some sertao) as H2 by calc.
  assert (text_at mundo_exemplo (name amazonia) = Some "Amazonia"%string) as H3 by calc.
  assert (text_at mundo_exemplo (name sertao) = Some "Sertao"%string) as H4 by calc.
  assert (min_int < armies amazonia <= max_int) as H5 by (split; [reflexivity | discriminate]).
  assert (1 <= armies sertao <= max_int) as H6 by (split; discriminate).
  split; [repeat (split; [assumption|]); assumption|].
  exact (resolverAtaque_one_army_lost mundo_exemplo p_amazonia p_sertao
           amazonia sertao "Amazonia" "Sertao" 5 2 H0 H1 H2 H3 H4 H5 H6).
Defined.

Lemma resolverAtaque_empty_target_witness :
  (p_atacante ≠ p_defensor /\
   territory_at mundo_deserto p_atacante = Some atacante /\
   territory_at mundo_deserto p_defensor = Some deserto /\
   text_at mundo_deserto (name atacante) = Some "Amazonia"%string /\
   text_at mundo_deserto (name deserto) = Some "Litoral"%string /\
   min_int < armies atacante <= max_int /\
   min_int < armies deserto <= 0 /\
   dado 5 > dado 0) /\
  exists w' f' t',
    resolverAtaque 5 0 p_atacante p_defensor mundo_deserto = Ret tt w' /\
    territory_at w' p_atacante = Some f' /\
    territory_at w' p_defensor = Some t' /\
    owner t' = 1 /\ armies t' = 1 /\ armies f' + armies t' = 5.
Proof.
  assert (p_atacante ≠ p_defensor) as H0 by discriminate.
  assert (territory_at mundo_deserto p_atacante = Some atacante) as H1 by calc.
  assert (territory_at mundo_deserto p_defensor = Some deserto) as H2 by calc.
  assert (text_at mundo_deserto (name atacante) = Some "Amazonia"%string) as H3 by calc.
  assert (text_at mundo_deserto (name deserto) = Some "Litoral"%string) as H4 by calc.
  assert (min_int < armies atacante <= max_int) as H5 by (split; [reflexivity | discriminate]).
  assert (min_int < armies deserto <= 0) as H6 by (split; [reflexivity | discriminate]).
  assert (dado 5 > dado 0) as H7 by reflexivity.
  split; [repeat (split; [assumption|]); assumption|].
  exact (resolverAtaque_empty_target mundo_deserto p_atacante p_defensor
           atacante deserto "Amazonia" "Litoral" 5 0 H0 H1 H2 H3 H4 H5 H6 H7).
Defined.

Lemma resolverAtaque_keeps_garrison_witness :
  (territory_at mundo_exemplo p_amazonia = Some amazonia /\
   territory_at mundo_exemplo p_sertao = Some sertao /\
   text_at mundo_exemplo (name amazonia) = Some "Amazonia"%string /\
   text_at mundo_exemplo (name sertao) = Some "Sertao"%string /\
   armies amazonia <= max_int /\
   1 <= armies sertao <= max_int /\
   validarAtaque p_amazonia p_sertao 1 mundo_exemplo = Ret 1 mundo_exemplo) /\
  exists w' f' t',
    resolverAtaque 0 0 p_amazonia p_sertao mundo_exemplo = Ret tt w' /\
    territory_at w' p_amazonia = Some f' /\
    territory_at w' p_sertao = Some t' /\
    1 <= armies f' /\ 1 <= armies t'.
Proof.
  assert (territory_at mundo_exemplo p_amazonia = Some amazonia) as H1 by calc.
  assert (territory_at mundo_exemplo p_sertao = Some sertao) as H2 by calc.
  assert (text_at mundo_exemplo (name amazonia) = Some "Amazonia"%string) as H3 by calc.
  assert (text_at mundo_exemplo (name sertao) = Some "Sertao"%string) as H4 by calc.
  assert (armies amazonia <= max_int) as H5 by discriminate.
  assert (1 <= armies sertao <= max_int) as H6 by (split; discriminate).
  assert (validarAtaque p_amazonia p_sertao 1 mundo_exemplo = Ret 1 mundo_exemplo)
    as H7 by calc.
  split; [repeat (split; [assumption|]); assumption|].
  destruct (resolverAtaque_keeps_garrison mundo_exemplo mundo_exemplo
              p_amazonia p_sertao amazonia sertao "Amazonia" "Sertao" 0 0 1
              H1 H2 H3 H4 H5 H6 H7)
    as (w' & f' & t' & Hrun & Hf & Ht & Hfa & Hta & _).
  exists w', f', t'. split; [exact Hrun|]. split; [exact Hf|]. split; [exact Ht|].
  split; [exact Hfa | exact Hta].
Defined.

Lemma resolverAtaque_then_validarAtaque_witness :
  (territory_at mundo_exemplo p_amazonia = Some amazonia /\
   territory_at mundo_exemplo p_sertao = Some sertao /\
   text_at mundo_exemplo (name amazonia) = Some "Amazonia"%string /\
   text_at mundo_exemplo (name sertao) = Some "Sertao"%string /\
   neighbor_seq mundo_exemplo amazonia = Some [p_sertao] /\
   armies amazonia <= max_int /\
   min_int < armies sertao <= max_int /\
   validarAtaque p_amazonia p_sertao 1 mundo_exemplo = Ret 1 mundo_exemplo) /\
  exists w',
    resolverAtaque 5 2 p_amazonia p_sertao mundo_exemplo = Ret tt w' /\
    validarAtaque p_amazonia p_sertao 1 w' = Ret 1 w'.
Proof.
  assert (territory_at mundo_exemplo p_amazonia = Some amazonia) as H1 by calc.
  assert (territory_at mundo_exemplo p_sertao = Some sertao) as H2 by calc.
  assert (text_at mundo_exemplo (name amazonia) = Some "Amazonia"%string) as H3 by calc.
  assert (text_at mundo_exemplo (name sertao) = Some "Sertao"%string) as H4 by calc.
  assert (neighbor_seq mundo_exemplo amazonia = Some [p_sertao]) as H5 by calc.
  assert (armies amazonia <= max_int) as H6 by discriminate.
  assert (min_int < armies sertao <= max_int) as H7 by (split; [reflexivity | discriminate]).
  assert (validarAtaque p_amazonia p_sertao 1 mundo_exemplo = Ret 1 mundo_exemplo)
    as H8 by calc.
  split; [repeat (split; [assumption|]); assumption|].
  destruct (resolverAtaque_then_validarAtaque mundo_exemplo p_amazonia p_sertao
              amazonia sertao "Amazonia" "Sertao" [p_sertao] 5 2 1
              H1 H2 H3 H4 H5 H6 H7 H8)
    as (w' & r & Hrun & Hval & _ & Hiff).
  exists w'. split; [exact Hrun|].
  rewrite Hval. f_equal. apply Hiff. left. split; reflexivity.
Defined.

Lemma adicionarVizinho_failure_witness :
  (territory_at mundo_exemplo p_litoral = Some litoral /\
   0 <= nNeighbors litoral < max_int) /\
  exists w',
    adicionarVizinho false p_litoral p_amazonia mundo_exemplo
      = Exit EXIT_FAILURE w' /\
    territory_at w' p_litoral = Some (set_neighbors NULL litoral).
Proof.
  assert (territory_at mundo_exemplo p_litoral = Some litoral) as H1 by calc.
  assert (0 <= nNeighbors litoral < max_int) as H2 by (split; [discriminate | reflexivity]).
  split; [split; assumption|].
  destruct (adicionarVizinho_failure mundo_exemplo p_litoral p_amazonia litoral H1 H2)
    as (w' & Hrun & Ht & _).
  exists w'. split; [exact Hrun | exact Ht].
Defined.

Lemma adicionarVizinho_then_validarAtaque_witness :
  (p_litoral ≠ p_amazonia /\
   territory_at mundo_exemplo p_litoral = Some litoral /\
   territory_at mundo_exemplo p_amazonia = Some amazonia /\
   neighbor_seq mundo_exemplo litoral = Some [p_sertao] /\
   0 <= nNeighbors litoral < max_int) /\
  exists w',
    adicionarVizinho true p_litoral p_amazonia mundo_exemplo = Ret tt w' /\
    validarAtaque p_litoral p_amazonia 0 w' = Ret 1 w'.
Proof.
  assert (p_litoral ≠ p_amazonia) as H0 by discriminate.
  assert (territory_at mundo_exemplo p_litoral = Some litoral) as H1 by calc.
  assert (territory_at mundo_exemplo p_amazonia = Some amazonia) as H2 by calc.
  assert (neighbor_seq mundo_exemplo litoral = Some [p_sertao]) as H3 by calc.
  assert (0 <= nNeighbors litoral < max_int) as H4 by (split; [discriminate | reflexivity]).
  split; [repeat (split; [assumption|]); assumption|].
  destruct (adicionarVizinho_then_validarAtaque mundo_exemplo p_litoral p_amazonia
              litoral amazonia [p_sertao] 0 H0 H1 H2 H3 H4)
    as (w' & r & Hrun & Hval & _ & Hiff).
  exists w'. split; [exact Hrun|].
  rewrite Hval. f_equal. apply Hiff.
  split; [reflexivity|]. split; discriminate.
Defined.

Lemma adicionarVizinho_directed_witness :
  (p_litoral ≠ p_amazonia /\
   territory_at mundo_exemplo p_litoral = Some litoral /\
   territory_at mundo_exemplo p_amazonia = Some amazonia /\
   neighbor_seq mundo_exemplo litoral = Some [p_sertao] /\
   neighbor_seq mundo_exemplo amazonia = Some [p_sertao] /\
   (neighbors amazonia = NULL \/ neighbors amazonia ≠ neighbors litoral) /\
   0 <= nNeighbors litoral < max_int) /\
  exists w',
    adicionarVizinho true p_litoral p_amazonia mundo_exemplo = Ret tt w' /\
    validarAtaque p_amazonia p_litoral 1 w' = Ret 0 w'.
Proof.
  assert (p_litoral ≠ p_amazonia) as H0 by discriminate.
  assert (territory_at mundo_exemplo p_litoral = Some litoral) as H1 by calc.
  assert (territory_at mundo_exemplo p_amazonia = Some amazonia) as H2 by calc.
  assert (neighbor_seq mundo_exemplo litoral = Some [p_sertao]) as H3 by calc.
  assert (neighbor_seq mundo_exemplo amazonia = Some [p_sertao]) as H4 by calc.
  assert (neighbors amazonia = NULL \/ neighbors amazonia ≠ neighbors litoral) as H5
    by (right; discriminate).
  assert (0 <= nNeighbors litoral < max_int) as H6 by (split; [discriminate | reflexivity]).
  split; [repeat (split; [assumption|]); assumption|].
  destruct (adicionarVizinho_directed mundo_exemplo p_litoral p_amazonia
              litoral amazonia [p_sertao] [p_sertao] 1 H0 H1 H2 H3 H4 H5 H6)
    as (w' & r & Hrun & _ & Hval & Hzero).
  exists w'. split; [exact Hrun|].
  rewrite Hval. f_equal. apply Hzero.
  intros Hin. apply elem_of_cons in Hin as [Hin|Hin]; [discriminate Hin|].
  sem_membros Hin.
Defined.

Lemma adicionarVizinhos_appends_witness :
  (territory_at mundo_exemplo p_litoral = Some litoral /\
   neighbor_seq mundo_exemplo litoral = Some [p_sertao] /\
   0 <= nNeighbors litoral /\
   nNeighbors litoral + Z.of_nat (length [p_amazonia; p_amazonia]) <= max_int) /\
  exists w' tr',
    adicionarVizinhos p_litoral [p_amazonia; p_amazonia] mundo_exemplo = Ret tt w' /\
    territory_at w' p_litoral = Some tr' /\
    nNeighbors tr' = 3 /\
    neighbor_seq w' tr' = Some [p_sertao; p_amazonia; p_amazonia].
Proof.
  assert (territory_at mundo_exemplo p_litoral = Some litoral) as H1 by calc.
  assert (neighbor_seq mundo_exemplo litoral = Some [p_sertao]) as H2 by calc.
  assert (0 <= nNeighbors litoral) as H3 by discriminate.
  assert (nNeighbors litoral + Z.of_nat (length [p_amazonia; p_amazonia]) <= max_int)
    as H4 by discriminate.
  split; [repeat (split; [assumption|]); assumption|].
  destruct (adicionarVizinhos_appends [p_amazonia; p_amazonia] mundo_exemplo
              p_litoral litoral [p_sertao] H1 H2 H3 H4)
    as (w' & tr' & Hrun & Ht & Hn & Hseq & _).
  exists w', tr'. split; [exact Hrun|]. split; [exact Ht|].
  split; [exact Hn | exact Hseq].
Defined.

Lemma liberarMemoria_releases_witness :
  (registro_territorios mundo_completo (Ptr 1%positive) 3 slots_territorios /\
   registro_missoes mundo_completo (Ptr 11%positive) 2 slots_missoes /\
   NoDup (pegada territorio_locs (Ptr 1%positive) slots_territorios ++
          pegada missao_locs (Ptr 11%positive) slots_missoes)) /\
  exists w',
    liberarMemoria (Ptr 1%positive) 3 (Ptr 11%positive) 2 mundo_completo
      = Ret tt w' /\
    heap w' !! 2%positive = None /\ console w' = console mundo_completo.
Proof.
  assert (registro_territorios mundo_completo (Ptr 1%positive) 3 slots_territorios)
    as H1
    by registro_calc
         [Some (Ptr 2%positive); Some (Ptr 4%positive); Some (Ptr 6%positive)].
  assert (registro_missoes mundo_completo (Ptr 11%positive) 2 slots_missoes) as H2
    by registro_calc [Some (Ptr 12%positive); Some (Ptr 14%positive)].
  assert (NoDup (pegada territorio_locs (Ptr 1%positive) slots_territorios ++
                 pegada missao_locs (Ptr 11%positive) slots_missoes)) as H3
    by (apply (bool_decide_unpack _); vm_compute; exact I).
  split; [repeat (split; [assumption|]); assumption|].
  destruct (liberarMemoria_releases mundo_completo (Ptr 1%positive) 3
              slots_territorios (Ptr 11%positive) 2 slots_missoes H1 H2 H3)
    as (w' & Hrun & Hgone & _ & Hcon).
  exists w'. split; [exact Hrun|]. split; [|exact Hcon].
  apply Hgone. vm_compute.
  apply elem_of_cons. right. apply elem_of_cons. right.
  apply elem_of_cons. left. reflexivity.
Defined.


Lemma liberarMemoria_then_use_witness :
  (registro_territorios mundo_completo (Ptr 1%positive) 3 slots_territorios /\
   registro_missoes mundo_completo (Ptr 11%positive) 2 slots_missoes /\
   NoDup (pegada territorio_locs (Ptr 1%positive) slots_territorios ++
          pegada missao_locs (Ptr 11%positive) slots_missoes)) /\
  exists w',
    liberarMemoria (Ptr 1%positive) 3 (Ptr 11%positive) 2 mundo_completo
      = Ret tt w' /\
    validarAtaque p_amazonia p_sertao 1 w' = Undef.
Proof.
  assert (registro_territorios mundo_completo (Ptr 1%positive) 3 slots_territorios)
    as H1
    by registro_calc
         [Some (Ptr 2%positive); Some (Ptr 4%positive); Some (Ptr 6%positive)].
  assert (registro_missoes mundo_completo (Ptr 11%positive) 2 slots_missoes) as H2
    by registro_calc [Some (Ptr 12%positive); Some (Ptr 14%positive)].
  assert (NoDup (pegada territorio_locs (Ptr 1%positive) slots_territorios ++
                 pegada missao_locs (Ptr 11%positive) slots_missoes)) as H3
    by (apply (bool_decide_unpack _); vm_compute; exact I).
  split; [repeat (split; [assumption|]); assumption|].
  destruct (liberarMemoria_then_use mundo_completo (Ptr 1%positive) 3
              slots_territorios (Ptr 11%positive) 2 slots_missoes H1 H2 H3)
    as (w' & Hrun & Huse).
  exists w'. split; [exact Hrun|].
  apply (Huse 2%positive amazonia 4%positive sertao 1 0 0).
  - apply elem_of_cons. left. reflexivity.
  - apply elem_of_cons. right. apply elem_of_cons. left. reflexivity.
Defined.

Lemma resolverAtaque_then_liberarMemoria_witness :
  (p_amazonia ≠ p_sertao /\
   territory_at mundo_completo p_amazonia = Some amazonia /\
   territory_at mundo_completo p_sertao = Some sertao /\
   text_at mundo_completo (name amazonia) = Some "Amazonia"%string /\
   text_at mundo_completo (name sertao) = Some "Sertao"%string /\
   min_int < armies amazonia <= max_int /\
   min_int < armies sertao <= max_int /\
   registro_territorios mundo_completo (Ptr 1%positive) 3 slots_territorios /\
   registro_missoes mundo_completo (Ptr 11%positive) 2 slots_missoes /\
   NoDup (pegada territorio_locs (Ptr 1%positive) slots_territorios ++
          pegada missao_locs (Ptr 11%positive) slots_missoes)) /\
  exists w' w'',
    resolverAtaque 5 2 p_amazonia p_sertao mundo_completo = Ret tt w' /\
    liberarMemoria (Ptr 1%positive) 3 (Ptr 11%positive) 2 w' = Ret tt w'' /\
    heap w'' !! 4%positive = None.
Proof.
  assert (p_amazonia ≠ p_sertao) as H0 by discriminate.
  assert (territory_at mundo_completo p_amazonia = Some amazonia) as H1 by calc.
  assert (territory_at mundo_completo p_sertao = Some sertao) as H2 by calc.
  assert (text_at mundo_completo (name amazonia) = Some "Amazonia"%string) as H3 by calc.
  assert (text_at mundo_completo (name sertao) = Some "Sertao"%string) as H4 by calc.
  assert (min_int < armies amazonia <= max_int) as H5 by (split; [reflexivity | discriminate]).
  assert (min_int < armies sertao <= max_int) as H6 by (split; [reflexivity | discriminate]).
  assert (registro_territorios mundo_completo (Ptr 1%positive) 3 slots_territorios)
    as H7
    by registro_calc
         [Some (Ptr 2%positive); Some (Ptr 4%positive); Some (Ptr 6%positive)].
  assert (registro_missoes mundo_completo (Ptr 11%positive) 2 slots_missoes) as H8
    by registro_calc [Some (Ptr 12%positive); Some (Ptr 14%positive)].
  assert (NoDup (pegada territorio_locs (Ptr 1%positive) slots_territorios ++
                 pegada missao_locs (Ptr 11%positive) slots_missoes)) as H9
    by (apply (bool_decide_unpack _); vm_compute; exact I).
  split; [repeat (split; [assumption|]); assumption|].
  destruct (resolverAtaque_then_liberarMemoria mundo_completo p_amazonia p_sertao
              amazonia sertao "Amazonia" "Sertao" 5 2
              (Ptr 1%positive) 3 slots_territorios
              (Ptr 11%positive) 2 slots_missoes H0 H1 H2 H3 H4 H5 H6 H7 H8 H9)
    as (w' & w'' & Hrun & Hfree & Hgone & _).
  exists w', w''. split; [exact Hrun|]. split; [exact Hfree|].
  apply Hgone. vm_compute.
  do 5 (apply elem_of_cons; right). apply elem_of_cons. left. reflexivity.
Defined.

Lemma criarTerritorio_then_validarAtaque_witness :
  territory_at mundo_exemplo p_amazonia = Some amazonia /\
  exists l w',
    criarTerritorio true true "Cerrado" 1 4 mundo_exemplo = Ret (Ptr l) w' /\
    validarAtaque (Ptr l) p_amazonia 1 w' = Ret 0 w'.
Proof.
  assert (territory_at mundo_exemplo p_amazonia = Some amazonia) as H1 by calc.
  split; [exact H1|].
  destruct (criarTerritorio_then_validarAtaque mundo_exemplo "Cerrado" 1 4
              p_amazonia amazonia 1 H1)
    as (l & w' & Hrun & Hval & _).
  exists l, w'. split; [exact Hrun | exact Hval].
Defined.
